(** * PEDA live-process introspection engine: a shallow embedding of
    [peda.py] and the properties of its control-flow evaluator, argument
    inferencer, value classifier, reference-chain walker, ELF section
    model and hardening check.

    The code is read with the semantics of Python 3.  Python values are
    modelled by the Rocq types closest to them: [int] is [Z], [str] is
    [string] (one [ascii] per code point below 256), [None] is [option], a
    [dict] whose iteration order is irrelevant is a [gmap], an
    insertion-ordered [dict] is an association list, and a call that may
    raise is a computation in the error monad [Res]. *)

From Stdlib Require Import ZArith String Ascii List Bool Lia HexString.
From stdpp Require Import base option list gmap strings pretty.

Local Open Scope Z_scope.
Local Open Scope string_scope.

(** ** Python prelude *)

Module Py.

(** The exceptions the modelled code can raise. *)
Inductive exn : Type :=
| KeyError (key : string)
| NameError (name : string)
| UnboundLocalError (name : string)
| TypeError
| ValueError
| AttributeError
| IndexError.

(** A computation either returns or raises. *)
Inductive Res (A : Type) : Type :=
| Ok (a : A)
| Raise (e : exn).
Arguments Ok {A} a.
Arguments Raise {A} e.

Definition bind {A B} (m : Res A) (k : A -> Res B) : Res B :=
  match m with
  | Ok a => k a
  | Raise e => Raise e
  end.

Definition rmap {A B} (f : A -> B) (m : Res A) : Res B :=
  bind m (fun a => Ok (f a)).

(** [a or b] and [a and b] on booleans: the right operand is evaluated
    only when the left one does not decide. *)
Definition por (a b : Res bool) : Res bool :=
  match a with
  | Ok true => Ok true
  | Ok false => b
  | Raise e => Raise e
  end.
Definition pand (a b : Res bool) : Res bool :=
  match a with
  | Ok true => b
  | Ok false => Ok false
  | Raise e => Raise e
  end.
Definition pnot (a : Res bool) : Res bool := rmap negb a.

(** [d[k]] on a dict. *)
Definition getitem {V} (d : gmap string V) (k : string) : Res V :=
  match d !! k with
  | Some v => Ok v
  | None => Raise (KeyError k)
  end.

(** [l[i]] for a non-negative index. *)
Definition index {A} (l : list A) (i : nat) : Res A :=
  match l !! i with
  | Some x => Ok x
  | None => Raise IndexError
  end.

(** [[f(x) for x in l]], stopping at the first exception. *)
Fixpoint traverse {A B} (f : A -> Res B) (l : list A) : Res (list B) :=
  match l with
  | [] => Ok []
  | x :: l' => bind (f x) (fun y => bind (traverse f l') (fun ys => Ok (y :: ys)))
  end.

(** [l.count(x)] on a list of strings. *)
Definition lcount (l : list string) (x : string) : Z :=
  Z.of_nat (length (filter (fun y => y = x) l)).

(** [x in l] on a list of strings. *)
Definition lmem (x : string) (l : list string) : bool := bool_decide (x ∈ l).

(** [l[-1]]. *)
Definition last_item {A} (l : list A) : Res A :=
  match List.rev l with
  | x :: _ => Ok x
  | [] => Raise IndexError
  end.

(** *** Strings *)

Definition chr (n : nat) : string := String (ascii_of_nat n) EmptyString.
Definition TAB : string := chr 9.
Definition LF : string := chr 10.

(** [str.isspace] on one code point below 256. *)
Definition isspace (c : ascii) : bool :=
  let n := nat_of_ascii c in
  ((9 <=? n) && (n <=? 13) || (28 <=? n) && (n <=? 32)
   || (n =? 133) || (n =? 160))%nat.

(** [s.startswith(p)]. *)
Definition startswith (s p : string) : bool := String.prefix p s.

(** [sub in s]. *)
Fixpoint contains (sub s : string) : bool :=
  String.prefix sub s ||
  match s with
  | EmptyString => false
  | String _ s' => contains sub s'
  end.

(** [s.count(sub)] for a non-empty [sub]: occurrences that do not
    overlap, scanned from the left.  [skip] is the number of characters
    of the current occurrence still to be passed over. *)
Fixpoint count_go (sub : string) (skip : nat) (s : string) : nat :=
  match s with
  | EmptyString => 0%nat
  | String _ s' =>
      match skip with
      | S k => count_go sub k s'
      | O => if String.prefix sub s
             then S (count_go sub (Nat.pred (String.length sub)) s')
             else count_go sub 0 s'
      end
  end.
Definition count (s sub : string) : nat := count_go sub 0 s.

(** [s.replace(old, new)] for a non-empty [old]. *)
Fixpoint replace_go (old new : string) (skip : nat) (s : string) : string :=
  match s with
  | EmptyString => EmptyString
  | String c s' =>
      match skip with
      | S k => replace_go old new k s'
      | O => if String.prefix old s
             then new +:+ replace_go old new (Nat.pred (String.length old)) s'
             else String c (replace_go old new 0 s')
      end
  end.
Definition replace (s old new : string) : string := replace_go old new 0 s.

(** [s.split(sep)] for a non-empty [sep]; [cur] is the current field,
    reversed. *)
Fixpoint split_go (sep : string) (skip : nat) (cur : string) (s : string)
  : list string :=
  match s with
  | EmptyString => [String.rev cur]
  | String c s' =>
      match skip with
      | S k => split_go sep k cur s'
      | O => if String.prefix sep s
             then String.rev cur
                  :: split_go sep (Nat.pred (String.length sep)) EmptyString s'
             else split_go sep 0 (String c cur) s'
      end
  end.
Definition split (s sep : string) : list string :=
  split_go sep 0 EmptyString s.

(** [s.split(sep, 1)]: cut at the first occurrence only. *)
Fixpoint split1_go (sep : string) (cur : string) (s : string) : list string :=
  match s with
  | EmptyString => [String.rev cur]
  | String c s' =>
      if String.prefix sep s
      then [String.rev cur;
            String.substring (String.length sep)
              (String.length s - String.length sep) s]
      else split1_go sep (String c cur) s'
  end.
Definition split1 (s sep : string) : list string :=
  split1_go sep EmptyString s.

(** [s.split()]: fields separated by runs of whitespace. *)
Fixpoint words_go (cur : option string) (s : string) : list string :=
  match s with
  | EmptyString => option_list (String.rev <$> cur)
  | String c s' =>
      if isspace c
      then option_list (String.rev <$> cur) ++ words_go None s'
      else words_go (Some (String c (default EmptyString cur))) s'
  end.
Definition words (s : string) : list string := words_go None s.

(** [s.lstrip(chars)], [s.strip(chars)] and [s.strip()]. *)
Fixpoint lstrip_by (p : ascii -> bool) (s : string) : string :=
  match s with
  | EmptyString => EmptyString
  | String c s' => if p c then lstrip_by p s' else s
  end.
Definition strip_by (p : ascii -> bool) (s : string) : string :=
  String.rev (lstrip_by p (String.rev (lstrip_by p s))).
Definition strip (s : string) : string := strip_by isspace s.
Definition rstrip (s : string) : string :=
  String.rev (lstrip_by isspace (String.rev s)).
Definition strip_chars (s chars : string) : string :=
  strip_by (fun c => contains (String c EmptyString) chars) s.

(** [s.splitlines()]: the line boundaries of [str] below code point 256;
    a carriage return directly followed by a line feed is one boundary. *)
Definition is_linebreak (c : ascii) : bool :=
  let n := nat_of_ascii c in
  ((10 <=? n) && (n <=? 13) || (28 <=? n) && (n <=? 30) || (n =? 133))%nat.

Fixpoint splitlines_go (cur : string) (s : string) : list string :=
  match s with
  | EmptyString =>
      match cur with EmptyString => [] | _ => [String.rev cur] end
  | String c s' =>
      if is_linebreak c then
        match s' with
        | String c' s'' =>
            if ((nat_of_ascii c =? 13) && (nat_of_ascii c' =? 10))%nat
            then String.rev cur :: splitlines_go EmptyString s''
            else String.rev cur :: splitlines_go EmptyString s'
        | EmptyString => [String.rev cur]
        end
      else splitlines_go (String c cur) s'
  end.
Definition splitlines (s : string) : list string :=
  splitlines_go EmptyString s.

(** [sep.join(l)]. *)
Fixpoint join (sep : string) (l : list string) : string :=
  match l with
  | [] => EmptyString
  | [x] => x
  | x :: l' => x +:+ sep +:+ join sep l'
  end.

(** [s[1:]]. *)
Definition tail (s : string) : string :=
  match s with
  | EmptyString => EmptyString
  | String _ s' => s'
  end.

(** ["%#x" % n] and ["%d" % n]. *)
Definition fmt_hex (n : Z) : string := HexString.of_Z n.
Definition fmt_dec (n : Z) : string := pretty n.

(** [bool(n)] for an int. *)
Definition truthy (n : Z) : bool := negb (n =? 0)%Z.

(** The dynamically typed values that reach [utils.to_int] and that the
    value classifier returns as a payload: [None], an [int] or a [str]. *)
Inductive value : Type :=
| VNone
| VInt (n : Z)
| VStr (s : string).

Global Instance value_eq_dec : EqDecision value.
Proof. solve_decision. Defined.

Definition of_str (s : option string) : value :=
  match s with
  | Some s => VStr s
  | None => VNone
  end.

End Py.

Import Py.

Notation "'let*' x ':=' m 'in' k" := (Py.bind m (fun x => k))
  (at level 10, x name, m at level 100, k at level 200).
Infix "|||" := Py.por (at level 50, left associativity).
Infix "&&&" := Py.pand (at level 40, left associativity).

(** ** External collaborators *)

(** Python's [re] module and the helpers of PEDA's [utils] module, whose
    code is not part of [peda.py].  A match object is the list of its
    groups, numbered from 1; a group that took no part in the match is
    [None].  [re_findall] returns, for each match, the list of its groups
    (the whole match when the pattern has no group). *)
Record Lib : Type := {
  re_search : string -> string -> option (list (option string));
  re_findall : string -> string -> list (list string);
  to_int : value -> option Z;
  to_hex : Z -> string;
  int2hexstr : Z -> Z -> string;
  is_printable : string -> bool;
  u32 : list Byte.byte -> Z;
  u64 : list Byte.byte -> Z;
  execute_external_command : string -> string;
  READELF : string
}.

(** One line of the memory map: (start, end, permission, mapname). *)
Definition vmrange : Type := Z * Z * string * string.

(** One ELF section: (start, end, type).  The end is what [utils.to_int]
    made of the text gdb printed, hence possibly [None]. *)
Definition header : Type := Z * option Z * string.

(** An insertion-ordered [dict] from section names to sections. *)
Definition headers : Type := list (string * header).

(** The debugging session.  [execute] is [PEDA.execute(cmd, to_string=True)],
    whose result is gdb's output, or [False] ([None] here) when gdb fails.
    The other fields are PEDA's wrappers that only parse gdb's answers,
    taken at their return values. *)
Record Gdb : Type := {
  execute : string -> option string;
  getarch : string * Z;
  getpid : option Z;
  getfile : option string;
  getreg : string -> option Z;
  getregs : option (gmap string Z);
  gdb_parse_and_eval : string -> option Z;
  read_memory : Z -> Z -> option (list Byte.byte);
  next_inst : option Z -> Res (option (list (option Z * string)));
  prev_inst : option Z -> Z -> Res (option (list (option Z * string)));
  get_vmmap : option string -> option (list vmrange);
  elfheader_solib : string -> Res headers
}.

(** The names bound at the top level of [peda.py]: its imports, constants,
    classes, the two singletons, and the loop variables of its top-level
    [for] statements. *)
Definition module_globals : list string :=
  ["absolute_import"; "division"; "print_function"; "re"; "csv"; "os"; "sys";
   "shlex"; "string"; "time"; "traceback"; "codecs"; "gdb"; "PEDAFILE"; "six";
   "range"; "input"; "pickle"; "SHELLCODES"; "Shellcode"; "utils";
   "normalize_argv"; "memoized"; "format_reference_chain";
   "format_disasm_code"; "to_int"; "to_hex"; "to_hexstr"; "hex2str";
   "to_address"; "int2hexstr"; "list2hexstr"; "str2intlist"; "u32"; "u64";
   "p32"; "p64"; "msg"; "warning_msg"; "error_msg"; "separator"; "pager";
   "green"; "red"; "yellow"; "blue"; "purple"; "cyan"; "config"; "Nasm";
   "pyversion"; "REGISTERS"; "_mask"; "_mask_val_type"; "PEDA"; "PEDACmd";
   "pedaGDBCommand"; "Alias"; "peda"; "pedacmd"; "cmd"; "func";
   "sigint_handler"; "shellcmds"].

(** [name.findall(text)] for a [name] that is not a local variable: the
    name is resolved among the module's globals first (no builtin is called
    [p]).  None of the globals is a compiled pattern: [re.findall] wants two
    arguments, and the other objects have no such attribute. *)
Definition global_findall (name text : string) : Res (list (list string)) :=
  if lmem name module_globals then
    if String.eqb name "re" then Raise TypeError else Raise AttributeError
  else Raise (NameError name).

(** ** The engine *)

Section Engine.

Context (L : Lib) (g : Gdb).

(** *** Registers and memory *)

Definition REGISTERS_8 : list string :=
  ["al"; "ah"; "bl"; "bh"; "cl"; "ch"; "dl"; "dh"].
Definition REGISTERS_16 : list string := ["ax"; "bx"; "cx"; "dx"].
Definition REGISTERS_i386 : list string :=
  ["eax"; "ebx"; "ecx"; "edx"; "esi"; "edi"; "ebp"; "esp"; "eip"].
Definition REGISTERS_x86_64 : list string :=
  ["rax"; "rbx"; "rcx"; "rdx"; "rsi"; "rdi"; "rbp"; "rsp"; "rip"; "r8";
   "r9"; "r10"; "r11"; "r12"; "r13"; "r14"; "r15"].
Definition REGISTERS_littlearm : list string :=
  ["r0"; "r1"; "r2"; "r3"; "r4"; "r5"; "r6"; "r7"; "r8"; "r9"; "r10";
   "r11"; "r12"; "sp"; "lr"; "pc"].
Definition REGISTERS_littleaarch64 : list string :=
  (map (fun x : nat => "x" +:+ pretty x) (seq 0 31) ++ ["sp"; "pc"]
   ++ map (fun x : nat => "w" +:+ pretty x) (seq 0 31))%list.

Definition intsize : Z := (getarch g).2 `div` 8.

(** A Python operation that needs a [str] and is given [None]. *)
Definition str_of (s : option string) : Res string :=
  match s with
  | Some s => Ok s
  | None => Raise TypeError
  end.

Definition int_of (n : option Z) : Res Z :=
  match n with
  | Some n => Ok n
  | None => Raise TypeError
  end.

Definition parse_and_eval (exp : string) : option Z :=
  let arch := (getarch g).1 in
  let regs :=
    if contains "aarch64" arch then REGISTERS_littleaarch64
    else if contains "arm" arch then REGISTERS_littlearm
    else (REGISTERS_x86_64 ++ REGISTERS_i386 ++ REGISTERS_16
          ++ REGISTERS_8)%list in
  let exp :=
    fold_left
      (fun exp r =>
         if negb (contains ("$" +:+ r) exp) && negb (contains ("e" +:+ r) exp)
            && negb (contains ("r" +:+ r) exp)
         then replace exp r ("$" +:+ r)
         else exp)
      regs exp in
  gdb_parse_and_eval g exp.

Definition read_mem (address : option Z) (size : Z) : Res (option (list Byte.byte)) :=
  let* a := int_of address in Ok (read_memory g a size).

Definition unpack (s : list Byte.byte) (intsize : Z) : option Z :=
  if (intsize =? 8)%Z then Some (u64 L s)
  else if (intsize =? 4)%Z then Some (u32 L s)
  else None.

Definition read_int (address : option Z) (size : option Z) : Res (option Z) :=
  let intsize :=
    match size with
    | Some n => if (n =? 0)%Z then intsize else n
    | None => intsize
    end in
  let* mem := read_mem address intsize in
  match mem with
  | Some (b :: bs) => Ok (unpack (b :: bs) intsize)
  | _ => Ok None
  end.

(** *** Flag registers *)

Definition EFLAGS_CF : Z := 1 ≪ 0.
Definition EFLAGS_PF : Z := 1 ≪ 2.
Definition EFLAGS_AF : Z := 1 ≪ 4.
Definition EFLAGS_ZF : Z := 1 ≪ 6.
Definition EFLAGS_SF : Z := 1 ≪ 7.
Definition EFLAGS_TF : Z := 1 ≪ 8.
Definition EFLAGS_IF : Z := 1 ≪ 9.
Definition EFLAGS_DF : Z := 1 ≪ 10.
Definition EFLAGS_OF : Z := 1 ≪ 11.

Definition eflags_dict (eflags : Z) : gmap string bool :=
  <["OF" := truthy (Z.land eflags EFLAGS_OF)]>
  (<["DF" := truthy (Z.land eflags EFLAGS_DF)]>
  (<["IF" := truthy (Z.land eflags EFLAGS_IF)]>
  (<["TF" := truthy (Z.land eflags EFLAGS_TF)]>
  (<["SF" := truthy (Z.land eflags EFLAGS_SF)]>
  (<["ZF" := truthy (Z.land eflags EFLAGS_ZF)]>
  (<["AF" := truthy (Z.land eflags EFLAGS_AF)]>
  (<["PF" := truthy (Z.land eflags EFLAGS_PF)]>
  (<["CF" := truthy (Z.land eflags EFLAGS_CF)]>
  (list_to_map
     [("CF", false); ("PF", false); ("AF", false); ("ZF", false);
      ("SF", false); ("TF", false); ("IF", false); ("DF", false);
      ("OF", false)]))))))))).

Definition get_eflags : option (gmap string bool) :=
  match getreg g "eflags" with
  | None => None
  | Some eflags => if (eflags =? 0)%Z then None else Some (eflags_dict eflags)
  end.

Definition CPSR_N : Z := 1 ≪ 0x1f.
Definition CPSR_Z : Z := 1 ≪ 0x1e.
Definition CPSR_C : Z := 1 ≪ 0x1d.
Definition CPSR_V : Z := 1 ≪ 0x1c.
Definition CPSR_Q : Z := 1 ≪ 0x1b.
Definition CPSR_J : Z := 1 ≪ 0x18.
Definition CPSR_GE : Z := 7 ≪ 0x10.
Definition CPSR_E : Z := 1 ≪ 9.
Definition CPSR_D : Z := 1 ≪ 9.
Definition CPSR_A : Z := 1 ≪ 8.
Definition CPSR_I : Z := 1 ≪ 7.
Definition CPSR_F : Z := 1 ≪ 6.
Definition CPSR_T : Z := 1 ≪ 5.

Definition cpsr_dict (cpsr : Z) : gmap string bool :=
  <["N" := truthy (Z.land cpsr CPSR_N)]>
  (<["Z" := truthy (Z.land cpsr CPSR_Z)]>
  (<["C" := truthy (Z.land cpsr CPSR_C)]>
  (<["V" := truthy (Z.land cpsr CPSR_V)]>
  (<["Q" := truthy (Z.land cpsr CPSR_Q)]>
  (<["J" := truthy (Z.land cpsr CPSR_J)]>
  (<["GE" := truthy (Z.land cpsr CPSR_GE)]>
  (<["E" := truthy (Z.land cpsr CPSR_E)]>
  (<["A" := truthy (Z.land cpsr CPSR_A)]>
  (<["I" := truthy (Z.land cpsr CPSR_I)]>
  (<["F" := truthy (Z.land cpsr CPSR_F)]>
  (<["T" := truthy (Z.land cpsr CPSR_T)]>
  (list_to_map
     [("T", false); ("F", false); ("I", false); ("A", false);
      ("E", false); ("GE", false); ("J", false); ("Q", false);
      ("V", false); ("C", false); ("Z", false); ("N", false)])))))))))))).

Definition get_cpsr : option (gmap string bool) :=
  cpsr_dict <$> getreg g "cpsr".

Definition aarch64_cpsr_dict (cpsr : Z) : gmap string bool :=
  <["N" := truthy (Z.land cpsr CPSR_N)]>
  (<["Z" := truthy (Z.land cpsr CPSR_Z)]>
  (<["C" := truthy (Z.land cpsr CPSR_C)]>
  (<["V" := truthy (Z.land cpsr CPSR_V)]>
  (<["D" := truthy (Z.land cpsr CPSR_D)]>
  (<["A" := truthy (Z.land cpsr CPSR_A)]>
  (<["I" := truthy (Z.land cpsr CPSR_I)]>
  (<["F" := truthy (Z.land cpsr CPSR_F)]>
  (list_to_map
     [("F", false); ("I", false); ("A", false); ("D", false);
      ("V", false); ("C", false); ("Z", false); ("N", false)])))))))).

Definition get_aarch64_cpsr : option (gmap string bool) :=
  aarch64_cpsr_dict <$> getreg g "cpsr".

(** *** Control-flow evaluation *)

(** [m.group(i)]. *)
Definition group (m : list (option string)) (i : nat) : Res (option string) :=
  index m (Nat.pred i).

Definition PTR_OPERAND : string :=
  "\w+\s+(\w+) PTR (\[(\S+)\]|\w+:(0x\S+))".
Definition JUMP_OPERAND : string := "\w+\s+(0x\S+|\w+)".

Definition eval_target (opcode inst : string) : Res (option Z) :=
  if contains "ret" opcode then
    if contains "aarch64" (getarch g).1 then Ok (getreg g "x30")
    else read_int (getreg g "sp") None
  else
    match re_search L PTR_OPERAND inst with
    | Some m =>
        let* prefix := group m 1 in
        let* g2 := bind (group m 2) str_of in
        let* dest :=
          (if contains "[" g2 then
             let* dest := bind (group m 3) str_of in
             if contains "rip" dest then
               let pc := getreg g "pc" in
               let* insts := next_inst g pc in
               let* first := match insts with
                             | Some l => index l 0
                             | None => Raise TypeError
                             end in
               let* a := int_of first.1 in
               let* pc := int_of pc in
               let ins_size := a - pc in
               Ok (dest +:+ "+" +:+ fmt_dec ins_size)
             else Ok dest
           else bind (group m 4) str_of) in
        let intsize :=
          if bool_decide (prefix = Some "QWORD") then Some 8
          else if bool_decide (prefix = Some "DWORD") then Some 4
          else if bool_decide (prefix = Some "WORD") then Some 2
          else None in
        let addr := parse_and_eval dest in
        match intsize with
        | Some n => read_int addr (Some n)
        | None => Raise (UnboundLocalError "intsize")
        end
    | None =>
        match re_search L JUMP_OPERAND inst with
        | Some m => let* e := bind (group m 1) str_of in Ok (parse_and_eval e)
        | None => Ok None
        end
    end.

(** [a == b] and [a != b] on two flag lookups. *)
Definition peq (a b : Res bool) : Res bool :=
  let* x := a in let* y := b in Ok (Bool.eqb x y).
Definition pne (a b : Res bool) : Res bool := pnot (peq a b).

Definition testjump (opcode inst : string) : Res (bool * option Z) :=
  match get_eflags with
  | None => Ok (false, None)
  | Some flags =>
      if bool_decide (flags = ∅) then Ok (false, None) else
      let* next_addr := eval_target opcode inst in
      let next_addr := default 0 next_addr in
      let is_ s := Ok (String.eqb opcode s) in
      let flag k := getitem flags k in
      let* taken :=
        (is_ "ret" |||
         is_ "jmp" |||
         (is_ "je" &&& flag "ZF") |||
         (is_ "jne" &&& pnot (flag "ZF")) |||
         (is_ "jg" &&& pnot (flag "ZF") &&& peq (flag "SF") (flag "OF")) |||
         (is_ "jge" &&& peq (flag "SF") (flag "OF")) |||
         (is_ "ja" &&& pnot (flag "CF") &&& pnot (flag "ZF")) |||
         (is_ "jae" &&& pnot (flag "CF")) |||
         (is_ "jl" &&& pne (flag "SF") (flag "OF")) |||
         (is_ "jle" &&& (flag "ZF" ||| pne (flag "SF") (flag "OF"))) |||
         (is_ "jb" &&& flag "CF") |||
         (is_ "jbe" &&& (flag "CF" ||| flag "ZF")) |||
         (is_ "jo" &&& flag "OF") |||
         (is_ "jno" &&& pnot (flag "OF")) |||
         (is_ "jz" &&& flag "ZF") |||
         (is_ "jnz" &&& flag "OF")) in
      if taken then Ok (true, Some next_addr) else Ok (false, None)
  end.

(** The [cbnz]/[cbz] tail of the ARM and AArch64 evaluators. *)
Definition compare_branch (opcode inst : string) (next_addr : Z)
  : Res (bool * option Z) :=
  if String.eqb opcode "cbnz" || String.eqb opcode "cbz" then
    let* field := last_item (split inst (":" +:+ TAB)) in
    let* rn := index (words field) 1 in
    let rn := strip_chars rn "," in
    let val := parse_and_eval rn in
    if bool_decide (val = Some 0) then Ok (true, Some next_addr)
    else Ok (false, None)
  else Ok (false, None).

Definition aarch64_testjump (opcode inst : string) : Res (bool * option Z) :=
  match get_aarch64_cpsr with
  | None => Ok (false, None)
  | Some flags =>
      if bool_decide (flags = ∅) then Ok (false, None) else
      let* next_addr := eval_target opcode inst in
      let next_addr := default 0 next_addr in
      let is_ s := Ok (String.eqb opcode s) in
      let flag k := getitem flags k in
      let* taken :=
        (Ok (contains "ret" opcode) |||
         is_ "b" |||
         (is_ "b.eq" &&& flag "Z") |||
         (is_ "b.ne" &&& pnot (flag "Z")) |||
         (is_ "b.cs" &&& flag "C") |||
         (is_ "b.cc" &&& pnot (flag "C")) |||
         (is_ "b.mi" &&& flag "N") |||
         (is_ "b.pl" &&& pnot (flag "N")) |||
         (is_ "b.vs" &&& flag "O") |||
         (is_ "b.vc" &&& pnot (flag "O")) |||
         (is_ "b.hi" &&& pnot (flag "Z") &&& flag "C") |||
         (is_ "b.ls" &&& pnot (flag "C") &&& flag "Z") |||
         (is_ "b.ge" &&& peq (flag "N") (flag "V")) |||
         (is_ "b.lt" &&& pne (flag "N") (flag "V")) |||
         (is_ "b.gt" &&& pnot (flag "Z") &&& peq (flag "N") (flag "V")) |||
         (is_ "b.le" &&& flag "Z" &&& pne (flag "N") (flag "V"))) in
      if taken then Ok (true, Some next_addr)
      else compare_branch opcode inst next_addr
  end.

Definition arm_testjump (opcode inst : string) : Res (bool * option Z) :=
  match get_cpsr with
  | None => Ok (false, None)
  | Some flags =>
      if bool_decide (flags = ∅) then Ok (false, None) else
      let* next_addr := eval_target opcode inst in
      let next_addr := default 0 next_addr in
      let starts s := Ok (startswith opcode s) in
      let flag k := getitem flags k in
      let* taken :=
        (Ok (String.eqb opcode "b") |||
         (starts "beq" &&& flag "Z") |||
         (starts "bne" &&& pnot (flag "Z")) |||
         (starts "bcs" &&& flag "C") |||
         (starts "bcc" &&& pnot (flag "C")) |||
         (starts "bmi" &&& flag "N") |||
         (starts "bpl" &&& pnot (flag "N")) |||
         (starts "bvs" &&& flag "O") |||
         (starts "bvc" &&& pnot (flag "O")) |||
         (starts "bhi" &&& pnot (flag "Z") &&& flag "C") |||
         (starts "bls" &&& pnot (flag "C") &&& flag "Z") |||
         (starts "bge" &&& peq (flag "N") (flag "V")) |||
         (starts "blt" &&& pne (flag "N") (flag "V")) |||
         (starts "bgt" &&& pnot (flag "Z") &&& peq (flag "N") (flag "V")) |||
         (starts "ble" &&& flag "Z" &&& pne (flag "N") (flag "V"))) in
      if taken then Ok (true, Some next_addr)
      else compare_branch opcode inst next_addr
  end.

(** *** ELF sections *)

(** [d[k] = v] on an insertion-ordered dict: an existing key keeps its
    place. *)
Fixpoint dict_set {V} (d : list (string * V)) (k : string) (v : V)
  : list (string * V) :=
  match d with
  | [] => [(k, v)]
  | (k', v') :: d' =>
      if String.eqb k' k then (k, v) :: d' else (k', v') :: dict_set d' k v
  end.

Fixpoint dict_get {V} (d : list (string * V)) (k : string) : option V :=
  match d with
  | [] => None
  | (k', v') :: d' => if String.eqb k' k then Some v' else dict_get d' k
  end.

(** The load base that [elfheader] adds: the start of the first mapping
    of the binary when the process runs, 0 otherwise. *)
Definition elfbase : Z :=
  match getpid g with
  | Some pid =>
      if (pid =? 0)%Z then 0
      else match get_vmmap g (Some "binary") with
           | Some ((start, _, _, _) :: _) => start
           | _ => 0
           end
  | None => 0
  end.

Definition SECTION_LINE : string :=
  "\s*(0x[^-]*)->(0x\S+) at (0x[^:]*):\s*([^ ]*)\s*(.*)".

(** One turn of the loop over the matched section lines. *)
Definition elfheader_step (elfinfo : headers) (row : list string)
  : Res headers :=
  match row with
  | [start; end_; offset; hname; attr] =>
      let start := to_int L (VStr start) in
      let end_ := to_int L (VStr end_) in
      let offset := to_int L (VStr offset) in
      let* s := int_of start in
      let* o := int_of offset in
      if (s <? o)%Z then Ok elfinfo
      else
        let* se :=
          (if (s <? elfbase)%Z
           then let* e := int_of end_ in Ok (s + elfbase, Some (e + elfbase))
           else Ok (s, end_)) in
        let htype :=
          if contains "CODE" attr then "code"
          else if contains "READONLY" attr then "rodata"
          else "data" in
        Ok (dict_set elfinfo (strip hname) (se.1, se.2, htype))
  | _ => Raise ValueError
  end.

Fixpoint elfheader_loop (elfinfo : headers) (matches : list (list string))
  : Res headers :=
  match matches with
  | [] => Ok elfinfo
  | row :: rest =>
      let* elfinfo := elfheader_step elfinfo row in
      elfheader_loop elfinfo rest
  end.

Definition elfheader (name : option string) : Res headers :=
  match execute g "maintenance info sections" with
  | None | Some EmptyString => Ok []
  | Some out =>
      let matches := re_findall L SECTION_LINE out in
      let* elfinfo := elfheader_loop [] matches in
      match name with
      | None => Ok elfinfo
      | Some name =>
          match dict_get elfinfo name with
          | Some v => Ok [(name, v)]
          | None => Ok (filter (fun kv => contains name kv.1 = true) elfinfo)
          end
      end
  end.

(** *** Hardening flags *)

Definition checksec_line (result : gmap string Z) (line : string)
  : gmap string Z :=
  let result :=
    if contains "GNU_RELRO" line
    then alter (fun v => Z.lor v 2) "RELRO" result else result in
  let result :=
    if contains "BIND_NOW" line
    then alter (fun v => Z.lor v 1) "RELRO" result else result in
  let result :=
    if contains "__stack_chk_fail" line
    then <["CANARY" := 1]> result else result in
  let result :=
    if contains "GNU_STACK" line && contains "RWE" line
    then <["NX" := 0]> result else result in
  let result :=
    if contains "Type:" line && contains "DYN (" line
    then <["PIE" := 4]> result else result in
  let result :=
    if contains "(DEBUG)" line && bool_decide (result !! "PIE" = Some 4)
    then <["PIE" := 1]> result else result in
  let result :=
    if contains "_chk@" line
    then <["FORTIFY" := 1]> result else result in
  result.

Definition checksec (filename : option string) : option (gmap string Z) :=
  let result : gmap string Z :=
    <["FORTIFY" := 0]> (<["PIE" := 0]> (<["NX" := 1]>
      (<["CANARY" := 0]> (<["RELRO" := 0]> ∅)))) in
  let filename :=
    match filename with
    | None => getfile g
    | Some f => Some f
    end in
  match filename with
  | None | Some EmptyString => None
  | Some filename =>
      let out :=
        execute_external_command L
          (READELF L +:+ " -W -a " +:+ chr 34 +:+ filename +:+ chr 34
           +:+ " 2>&1") in
      if contains "Error:" out then None
      else
        let result := fold_left checksec_line (splitlines out) result in
        let result :=
          if bool_decide (result !! "RELRO" = Some 1)
          then <["RELRO" := 0]> result else result in
        Some result
  end.

(** *** Address classification *)

Definition get_vmrange (address : option Z) (maps : option (list vmrange))
  : option vmrange :=
  match address with
  | None => None
  | Some address =>
      let maps :=
        match maps with
        | None => get_vmmap g None
        | Some maps => Some maps
        end in
      match maps with
      | Some (r :: rs) =>
          find (fun '(start, end_, perm, mapname) =>
                  (start <=? address)%Z && (end_ >? address)%Z) (r :: rs)
      | _ =>
          match read_memory g address 1 with
          | Some _ =>
              let start := Z.land address 0xfffffffffffff000 in
              let end_ := start + 0x1000 in
              Some (start, end_, "rwx", "unknown")
          | None => None
          end
      end
  end.

Definition is_executable (address : option Z) (maps : option (list vmrange))
  : bool :=
  match get_vmrange address maps with
  | Some (_, _, perm, _) => contains "x" perm
  | None => false
  end.

Definition is_writable (address : option Z) (maps : option (list vmrange))
  : bool :=
  match get_vmrange address maps with
  | Some (_, _, perm, _) => contains "w" perm
  | None => false
  end.

Definition is_address (value : option Z) (maps : option (list vmrange))
  : bool :=
  bool_decide (get_vmrange value maps <> None).

Definition get_disasm (address : Z) (count : Z) : string :=
  match execute g ("x/" +:+ fmt_dec count +:+ "i " +:+ fmt_hex address) with
  | Some (String c code) => rstrip (String c code)
  | _ => EmptyString
  end.

(** *** Value classification *)

(** The result of [examine_mem_value]: (value, type, next_value). *)
Definition triple : Type := option string * option string * value.

Definition examine_data (value : Z) : Res Py.value :=
  let* out := read_int (Some value) (Some intsize) in
  match out with
  | Some n =>
      if is_printable L (int2hexstr L n intsize) then
        let* text :=
          match execute g ("x/s " +:+ fmt_hex value) with
          | Some text => Ok text
          | None => Raise AttributeError
          end in
        let* rest := index (split1 text ":") 1 in
        Ok (VStr (strip rest))
      else Ok (VInt n)
  | None => Ok VNone
  end.

Definition DISASM_TEXT : string := ".*?0x\S+?\s(.*)".

(** [m = re.search(..., out)] followed by [m.group(1)]. *)
Definition disasm_text (out : string) : Res Py.value :=
  match re_search L DISASM_TEXT out with
  | Some m => let* t := group m 1 in Ok (of_str t)
  | None => Raise AttributeError
  end.

(** [sorted(headers.items(), key=lambda x: x[1][1])]: a stable sort by
    section end.  With two items or more every key is compared, and
    comparing [None] raises. *)
Definition end_key (x : string * header) : Z := default 0 x.2.1.2.

Fixpoint insert_by_end (x : string * header) (l : headers) : headers :=
  match l with
  | [] => [x]
  | y :: l' =>
      if (end_key x <=? end_key y)%Z then x :: l else y :: insert_by_end x l'
  end.

Definition sorted_by_end (hs : headers) : Res headers :=
  match hs with
  | [] | [_] => Ok hs
  | _ =>
      if forallb (fun x : string * header => bool_decide (x.2.1.2 <> None)) hs
      then Ok (foldr insert_by_end [] hs)
      else Raise TypeError
  end.

(** The [for ... break] over the sorted sections: the first section with
    [value >= start and value < end]. *)
Fixpoint find_section (value : Z) (hs : headers)
  : Res (option (string * header)) :=
  match hs with
  | [] => Ok None
  | (k, (start, end_, type)) :: rest =>
      if (value >=? start)%Z then
        let* e := int_of end_ in
        if (value <? e)%Z then Ok (Some (k, (start, end_, type)))
        else find_section value rest
      else find_section value rest
  end.

Definition examine_mem_value (value : option Z) : Res triple :=
  match value with
  | None => Ok (None, None, VNone)
  | Some value =>
      let binmap := get_vmmap g (Some "binary") in
      if negb (is_address (Some value) None) then
        Ok (Some (to_hex L value), Some "value", VStr EmptyString)
      else
        let mapname :=
          match get_vmrange (Some value) None with
          | Some (_, _, _, mapname) => mapname
          | None => EmptyString
          end in
        if is_writable (Some value) None then
          let* out := examine_data value in
          match out with
          | VNone => Ok (None, None, VNone)
          | _ =>
              match get_vmmap g (Some "heap") with
              | Some ((heap_start, heap_end, _, _) :: _) =>
                  if (value >=? heap_start)%Z && (value <? heap_end)%Z
                  then Ok (Some (to_hex L value), Some "heap", out)
                  else Ok (Some (to_hex L value), Some "data", out)
              | _ => Ok (Some (to_hex L value), Some "data", out)
              end
          end
        else if is_executable (Some value) None then
          let* headers :=
            (if is_address (Some value) binmap then elfheader None
             else elfheader_solib g mapname) in
          match headers with
          | _ :: _ =>
              let* headers := sorted_by_end headers in
              let* found := find_section value headers in
              match found with
              | Some (k, (start, end_, type)) =>
                  if String.eqb type "code" then
                    let* text := disasm_text (get_disasm value 1) in
                    Ok (Some (to_hex L value), Some "code", text)
                  else
                    let* out := examine_data value in
                    Ok (Some (to_hex L value), Some "rodata", out)
              | None =>
                  let* out := examine_data value in
                  Ok (Some (to_hex L value), Some "rodata", out)
              end
          | [] =>
              let out := get_disasm value 1 in
              if contains "(bad)" out then
                let* out := examine_data value in
                Ok (Some (to_hex L value), Some "rodata", out)
              else
                let* text := disasm_text out in
                Ok (Some (to_hex L value), Some "code", text)
          end
        else
          let* out := examine_data value in
          match out with
          | VNone => Ok (Some (to_hex L value), Some "rodata", VStr "MemError")
          | _ => Ok (Some (to_hex L value), Some "rodata", out)
          end
  end.

(** *** Reference chains *)

Definition TRUNCATED : string := "--> ...".

(** [result[-1] = (_v, _t, "--> ...")]. *)
Definition mark_truncated (result : list triple) : Res (list triple) :=
  match List.rev result with
  | (v, t, _) :: before => Ok (List.rev ((v, t, VStr TRUNCATED) :: before))
  | [] => Raise IndexError
  end.

(** [[to_int(v) for (v, _, _) in result]]: the addresses already in the
    chain. *)
Definition visited (result : list triple) : list (option Z) :=
  (fun e : triple => to_int L (of_str e.1.1)) <$> result.

(** The [while] loop of [examine_mem_reference], one turn per unit of
    [fuel]; [None] when the fuel runs out first. *)
Fixpoint examine_mem_reference_loop (fuel : nat) (depth : Z)
    (result : list triple) (cur : triple) : option (Res (list triple)) :=
  let '(v, t, vn) := cur in
  match vn with
  | VNone => Some (Ok result)
  | _ =>
      match fuel with
      | O => None
      | S fuel =>
          if (Z.of_nat (length result) >? depth)%Z
          then Some (mark_truncated result)
          else
            let result := (result ++ [(v, t, vn)])%list in
            let v_int := to_int L (of_str v) in
            let vn_int := to_int L vn in
            if bool_decide (of_str v = vn) || bool_decide (v_int = vn_int)
            then Some (Ok result)
            else
              match vn_int with
              | None => Some (Ok result)
              | Some n =>
                  if bool_decide (Some n ∈ visited result)
                  then Some (Ok result)
                  else
                    match examine_mem_value (to_int L vn) with
                    | Ok next =>
                        examine_mem_reference_loop fuel depth result next
                    | Raise e => Some (Raise e)
                    end
              end
      end
  end.

Definition examine_mem_reference (fuel : nat) (value : option Z) (depth : Z)
  : option (Res (list triple)) :=
  let depth := if (depth <=? 0)%Z then 0xffffffff else depth in
  match examine_mem_value value with
  | Ok first => examine_mem_reference_loop fuel depth [] first
  | Raise e => Some (Raise e)
  end.

(** *** Argument inference *)

(** [[r for (_, r) in matches]]. *)
Definition second (row : list string) : Res string :=
  match row with
  | [_; r] => Ok r
  | _ => Raise ValueError
  end.

(** The final loop of the register conventions:
    [for i in range(argc): args += [regs[arg_order[i]]]]. *)
Definition read_args (arg_order : list string) (argc : Z)
  : Res (list (option Z)) :=
  traverse
    (fun i =>
       let* name := index arg_order i in
       let* regs := match getregs g with
                    | Some regs => Ok regs
                    | None => Raise TypeError
                    end in
       let* v := getitem regs name in
       Ok (Some v))
    (seq 0 (Z.to_nat argc)).

Definition _get_function_args_32 (code : string) (argc : option Z)
  : Res (list (option Z)) :=
  let argc :=
    match argc with
    | Some n => if (n =? 0)%Z then None else Some n
    | None => None
    end in
  let argc :=
    match argc with
    | Some n => n
    | None =>
        let matches := concat (re_findall L ".*mov.*\[esp(.*)\]," code) in
        match matches with
        | _ :: _ =>
            let l := Z.of_nat (length matches) in
            fold_left
              (fun argc v =>
                 if startswith v "+" then
                   match to_int L (VStr (tail v)) with
                   | Some offset =>
                       if (offset `div` 4 >? l)%Z then argc else argc + 1
                   | None => argc + 1
                   end
                 else argc + 1)
              matches 0
        | [] => Z.of_nat (count code "push")
        end
    end in
  let argc := Z.min argc 6 in
  if (argc =? 0)%Z then Ok []
  else
    let sp := getreg g "sp" in
    traverse
      (fun i : nat =>
         let* sp := int_of sp in
         let* v := read_int (Some (sp + Z.of_nat i * 4)) (Some 4) in
         Ok v)
      (seq 0 (Z.to_nat argc)).

Definition _get_function_args_64 (code : string) (argc : option Z)
  : Res (list (option Z)) :=
  let arg_order := ["rdi"; "rsi"; "rdx"; "rcx"; "r8"; "r9"] in
  let matches := re_findall L ":\s*([^ ]*)\s*(.*)," code in
  let* regs := traverse second matches in
  let m := concat (re_findall L "di|si|dx|cx|r8|r9" (join " " regs)) in
  let m := remove_dups m in
  let argc := 0 in
  let argc := if lmem "si" m && negb (lmem "di" m) then argc + 1 else argc in
  let argc := argc + lcount m "di" in
  let argc := if (argc >? 0)%Z then argc + lcount m "si" else argc in
  let argc := if (argc >? 1)%Z then argc + lcount m "dx" else argc in
  let argc := if (argc >? 2)%Z then argc + lcount m "cx" else argc in
  let argc := if (argc >? 3)%Z then argc + lcount m "r8" else argc in
  let argc := if (argc >? 4)%Z then argc + lcount m "r9" else argc in
  if (argc =? 0)%Z then Ok []
  else read_args arg_order argc.

Definition _get_function_args_arm (code : string) (argc : option Z)
  : Res (list (option Z)) :=
  let arg_order := ["r0"; "r1"; "r2"; "r3"; "r4"; "r5"] in
  let matches := re_findall L ":\s*([^\s]*)\s*([^,]*)" code in
  let* regs := traverse second matches in
  let m := concat (re_findall L "(r[0-5])" (join " " regs)) in
  let m := remove_dups m in
  let argc := 0 in
  let argc := if lmem "r1" m && negb (lmem "r0" m) then argc + 1 else argc in
  let argc := argc + lcount m "r0" in
  let argc := if (argc >? 0)%Z then argc + lcount m "r1" else argc in
  let argc := if (argc >? 1)%Z then argc + lcount m "r2" else argc in
  let argc := if (argc >? 2)%Z then argc + lcount m "r3" else argc in
  let argc := if (argc >? 3)%Z then argc + lcount m "r4" else argc in
  let argc := if (argc >? 4)%Z then argc + lcount m "r5" else argc in
  if (argc =? 0)%Z then Ok []
  else read_args arg_order argc.

Definition _get_function_args_aarch64 (code : string) (argc : option Z)
  : Res (list (option Z)) :=
  let arg_order := ["x0"; "x1"; "x2"; "x3"; "x4"; "x5"] in
  let matches := re_findall L ":\s*([^\s]*)\s*([^,]*)" code in
  let* regs := traverse second matches in
  let m := concat (re_findall L "(x[0-5]|w[0-5])" (join " " regs)) in
  let m := remove_dups m in
  let either x w :=
    if negb (lcount m x =? 0)%Z then lcount m x else lcount m w in
  let argc := 0 in
  let argc := if lmem "x1" m && negb (lmem "x0" m) then argc + 1 else argc in
  let argc := argc + lcount m "x0" in
  let argc := if (argc >? 0)%Z then argc + either "x1" "w1" else argc in
  let argc := if (argc >? 1)%Z then argc + either "x2" "w2" else argc in
  let argc := if (argc >? 2)%Z then argc + either "x3" "w3" else argc in
  let argc := if (argc >? 3)%Z then argc + either "x4" "w4" else argc in
  let argc := if (argc >? 4)%Z then argc + either "x5" "w5" else argc in
  if (argc =? 0)%Z then Ok []
  else read_args arg_order argc.

Definition _get_function_args_ppc (code : string) (argc : option Z)
  : Res (list (option Z)) :=
  let arg_order := ["r3"; "r4"; "r5"; "r6"; "r7"; "r8"] in
  let matches := re_findall L ":\s*([^\s]*)\s*([^,]*)" code in
  let* matches := global_findall "p" code in
  let* regs := traverse second matches in
  let m := concat (re_findall L "(r[0-5])" (join " " regs)) in
  let m := remove_dups m in
  let argc := 0 in
  let argc := if lmem "r4" m && negb (lmem "r3" m) then argc + 1 else argc in
  let argc := argc + lcount m "r3" in
  let argc := if (argc >? 0)%Z then argc + lcount m "r4" else argc in
  let argc := if (argc >? 1)%Z then argc + lcount m "r5" else argc in
  let argc := if (argc >? 2)%Z then argc + lcount m "r6" else argc in
  let argc := if (argc >? 3)%Z then argc + lcount m "r7" else argc in
  let argc := if (argc >? 4)%Z then argc + lcount m "r8" else argc in
  if (argc =? 0)%Z then Ok []
  else read_args arg_order argc.

(** The backwards scan of [get_function_args]: the instructions after
    the previous call, as text; [insts] is the window, last instruction
    first. *)
Fixpoint code_since (call : string) (insts : list (option Z * string))
    (code : string) : Res string :=
  match insts with
  | [] => Ok code
  | (addr, inst) :: rest =>
      let* opcode := index (words (strip inst)) 0 in
      if contains call opcode then Ok code
      else
        let* a := int_of addr in
        code_since call rest (fmt_hex a +:+ ":" +:+ inst +:+ LF +:+ code)
  end.

Definition get_function_args (argc : option Z) : Res (list (option Z)) :=
  match getregs g with
  | None => Ok []
  | Some _ =>
      let arch := (getarch g).1 in
      let pc := getreg g "pc" in
      let* prev_insts := prev_inst g pc 12 in
      match prev_insts with
      | None | Some [] => Ok []
      | Some prev_insts =>
          let* code :=
            (if contains "aarch64" arch
             then code_since "bl" (List.rev prev_insts) EmptyString
             else code_since "call" (List.rev prev_insts) EmptyString) in
          if contains "aarch64" arch then _get_function_args_aarch64 code argc
          else if contains "i386" arch then _get_function_args_32 code argc
          else if contains "64" arch then _get_function_args_64 code argc
          else if contains "arm" arch then _get_function_args_arm code argc
          else if contains "powerpc" arch then _get_function_args_ppc code argc
          else Ok []
      end
  end.

End Engine.

(** ** Vocabulary of the statements *)


(** A returned section [entry] is explained by the matched line [row]: the
    line parses, its start is not below its file offset, the name is the
    stripped section name, and start and end are the parsed ones, moved up
    by [base] exactly when the parsed start is below [base]. *)
Definition rebased_from (L : Lib) (base : Z) (row : list string)
    (entry : string * header) : Prop :=
  exists (start end_ offset hname attr : string) (s0 o0 : Z),
    row = [start; end_; offset; hname; attr] /\
    to_int L (VStr start) = Some s0 /\
    to_int L (VStr offset) = Some o0 /\
    o0 <= s0 /\
    entry.1 = strip hname /\
    (if (s0 <? base)%Z
     then entry.2.1.1 = s0 + base /\
          exists e0 : Z, to_int L (VStr end_) = Some e0
                         /\ entry.2.1.2 = Some (e0 + base)
     else entry.2.1.1 = s0 /\ entry.2.1.2 = to_int L (VStr end_)) /\
    (0 <= s0 ->
     s0 <= entry.2.1.1 /\
     forall e0 e1 : Z, to_int L (VStr end_) = Some e0 ->
                       entry.2.1.2 = Some e1 -> e0 <= e1).

(** A cyclic pointer structure as the walker sees it: classifying the
    [i]-th address yields a payload that converts to the next address, the
    last one leading back to the first. *)
Definition cyclic_structure (L : Lib) (g : Gdb) (addrs : list Z) : Prop :=
  forall (i : nat) (a : Z),
    addrs !! i = Some a ->
    exists (v t : option string) (vn : value) (b : Z),
      examine_mem_value L g (Some a) = Ok (v, t, vn) /\
      vn <> VNone /\
      to_int L vn = Some b /\
      addrs !! (S i mod length addrs)%nat = Some b.

(** The RELRO value as two bits: GNU_RELRO seen, BIND_NOW seen. *)
Definition relro_value (gnu_relro bind_now : bool) : Z :=
  (if gnu_relro then 2 else 0) + (if bind_now then 1 else 0).

(** The depth bound [examine_mem_reference] works with. *)
Definition effective_depth (depth : Z) : Z :=
  if (depth <=? 0)%Z then 0xffffffff else depth.

(** ** Concrete collaborators

    A table-driven regular-expression engine, the hexadecimal instance of
    the [utils] conversions and a scripted debugging session, used to run
    the engine on concrete inputs. *)

Module Demo.

Definition le_decode (bs : list Byte.byte) : Z :=
  foldr (fun b acc => Z.of_N (Byte.to_N b) + 256 * acc) 0 bs.

Definition le_encode (size : nat) (n : Z) : list Byte.byte :=
  map (fun i : nat =>
         default Byte.x00 (Byte.of_N (Z.to_N ((n `div` 256 ^ Z.of_nat i) `mod` 256))))
      (seq 0 size).

(** Drop the zeros that pad a hexadecimal literal: [0x0040] is [0x40]. *)
Fixpoint drop_zeros (s : string) : string :=
  match s with
  | String c s' =>
      match s' with
      | EmptyString => s
      | _ => if Ascii.eqb c "0" then drop_zeros s' else s
      end
  | EmptyString => s
  end.
Definition lstrip_zeros (s : string) : string :=
  match s with
  | String c0 (String c1 s') =>
      if Ascii.eqb c0 "0" && Ascii.eqb c1 "x"
      then String c0 (String c1 (drop_zeros s')) else s
  | _ => s
  end.

(** [utils.to_int] on hexadecimal literals and on ints. *)
Definition hex_to_int (v : value) : option Z :=
  match v with
  | VNone => None
  | VInt n => Some n
  | VStr s =>
      let n := HexString.to_Z s in
      if String.eqb (HexString.of_Z n) s
         || String.eqb (HexString.of_Z n) (lstrip_zeros s)
      then Some n else None
  end.

Definition lookup2 {V} (table : list (string * string * V)) (a b : string)
  : option V :=
  snd <$> find (fun '(a', b', _) => String.eqb a' a && String.eqb b' b) table.

Definition lib (searches : list (string * string * list (option string)))
    (findalls : list (string * string * list (list string)))
    (readelf_output : string) : Lib :=
  {| re_search pat text := lookup2 searches pat text;
     re_findall pat text := default [] (lookup2 findalls pat text);
     to_int := hex_to_int;
     to_hex := HexString.of_Z;
     int2hexstr n size := EmptyString;
     is_printable s := false;
     u32 := le_decode;
     u64 := le_decode;
     execute_external_command cmd := readelf_output;
     READELF := "readelf" |}.

Definition plain_lib : Lib := lib [] [] EmptyString.

Definition lookup1 {V} (table : list (string * V)) (a : string) : option V :=
  snd <$> find (fun '(a', _) => String.eqb a' a) table.

(** A session: architecture, registers, the values gdb gives to
    expressions, the readable 8-byte words of memory, the memory map, the
    output of gdb commands and the instructions before the program
    counter. *)
Definition session (arch : string * Z) (regs : list (string * Z))
    (evals : list (string * Z)) (memory : list (Z * Z))
    (maps : list vmrange) (outputs : list (string * string))
    (window : list (option Z * string)) : Gdb :=
  {| execute cmd := lookup1 outputs cmd;
     getarch := arch;
     getpid := Some 4242;
     getfile := Some "/tmp/a.out";
     getreg r := lookup1 regs r;
     getregs := Some (list_to_map regs);
     gdb_parse_and_eval e := lookup1 evals e;
     read_memory a size :=
       (fun '(_, w) => le_encode (Z.to_nat size) w)
         <$> find (fun '(a', _) => (a' =? a)%Z) memory;
     next_inst pc := Ok None;
     prev_inst pc count := Ok (Some window);
     get_vmmap name :=
       match name with
       | None => Some maps
       | Some "binary" =>
           Some (filter (fun r : vmrange => contains "/tmp/a.out" r.2 = true) maps)
       | Some "heap" =>
           Some (filter (fun r : vmrange => contains "[heap]" r.2 = true) maps)
       | Some name =>
           Some (filter (fun r : vmrange => contains name r.2 = true) maps)
       end;
     elfheader_solib name := Ok [] |}.

(** x86-64, stopped at [je 0x7ffff7e39570] with ZF set. *)
Definition je_text : string := "je     0x7ffff7e39570 <puts+336>".
Definition jmp_text : string := "jmp    QWORD PTR [rax]".
Definition x86_lib : Lib :=
  lib [(JUMP_OPERAND, je_text, [Some "0x7ffff7e39570"]);
       (PTR_OPERAND, jmp_text,
        [Some "QWORD"; Some "[rax]"; Some "rax"; None]);
       (JUMP_OPERAND, "jne    0x401000", [Some "0x401000"]);
       (JUMP_OPERAND, "jnz    0x401000", [Some "0x401000"])]
      [] EmptyString.
Definition x86_session (eflags : Z) (memory : list (Z * Z)) : Gdb :=
  session ("elf64-x86-64", 64)
    [("eflags", eflags); ("rax", 0xdead0000); ("sp", 0x7ffffffde000)]
    [("0x7ffff7e39570", 0x7ffff7e39570); ("$rax", 0xdead0000);
     ("0x401000", 0x401000)]
    memory [] [] [].

(** AArch64, stopped at a conditional branch. *)
Definition bvs_text : string := "b.vs   0x4005d0 <main+20>".
Definition ble_text : string := "b.le   0x4005d0 <main+20>".
Definition aarch64_lib : Lib :=
  lib [(JUMP_OPERAND, bvs_text, [Some "0x4005d0"]);
       (JUMP_OPERAND, ble_text, [Some "0x4005d0"])]
      [] EmptyString.
Definition aarch64_session (cpsr : Z) : Gdb :=
  session ("elf64-littleaarch64", 64) [("cpsr", cpsr)]
    [("0x4005d0", 0x4005d0)] [] [] [] [].

(** A position-independent binary linked at base 0x10000 and loaded at
    0x555555554000; gdb prints the link-time addresses. *)
Definition sections_text : string :=
  " [0]      0x00011040->0x00011200 at 0x00001040: .text ALLOC LOAD READONLY CODE HAS_CONTENTS".
Definition pie_lib : Lib :=
  lib []
    [(SECTION_LINE, sections_text,
      [["0x00011040"; "0x00011200"; "0x00001040"; ".text";
        "ALLOC LOAD READONLY CODE HAS_CONTENTS"]])]
    EmptyString.
Definition pie_session : Gdb :=
  session ("elf64-x86-64", 64) [] [] []
    [(0x555555554000, 0x555555555000, "r--p", "/tmp/a.out");
     (0x555555565000, 0x555555566000, "r-xp", "/tmp/a.out");
     (0x7ffffffde000, 0x7ffffffff000, "rw-p", "[stack]")]
    [("maintenance info sections", sections_text)] [].

(** A position-independent binary linked at base 0 and loaded at 0x1000;
    its [.data] lies above the load base. *)
Definition low_sections_text : string :=
  " [1]      0x00004010->0x00004020 at 0x00003010: .data ALLOC LOAD DATA HAS_CONTENTS".
Definition low_pie_lib : Lib :=
  lib []
    [(SECTION_LINE, low_sections_text,
      [["0x00004010"; "0x00004020"; "0x00003010"; ".data";
        "ALLOC LOAD DATA HAS_CONTENTS"]])]
    EmptyString.
Definition low_pie_session : Gdb :=
  session ("elf64-x86-64", 64) [] [] []
    [(0x1000, 0x2000, "r-xp", "/tmp/a.out");
     (0x5000, 0x6000, "rw-p", "/tmp/a.out")]
    [("maintenance info sections", low_sections_text)] [].

(** Three words of a writable page pointing to one another in a cycle,
    and a fourth pointing to itself. *)
Definition ring_session : Gdb :=
  session ("elf64-x86-64", 64) [] []
    [(0x601000, 0x601010); (0x601010, 0x601020); (0x601020, 0x601000);
     (0x601030, 0x601030)]
    [(0x601000, 0x602000, "rw-p", "/tmp/a.out")] [] [].

(** A remote session whose memory map could not be read: no ranges are
    known, but memory is readable. *)
Definition mapless_session : Gdb :=
  session ("elf64-x86-64", 64) [] [] [(0x601000, 0x2a)] [] [] [].

(** A 32-bit x86 process stopped at a call, eight words on its stack. *)
Definition i386_session : Gdb :=
  session ("elf32-i386", 32)
    [("sp", 0xffffd000); ("pc", 0x8048450)] []
    [(0xffffd000, 1); (0xffffd004, 2); (0xffffd008, 3); (0xffffd00c, 4);
     (0xffffd010, 5); (0xffffd014, 6); (0xffffd018, 7); (0xffffd01c, 8)]
    [] []
    [(Some 0x8048446, "   mov    eax,0x0")].

(** An x86-64 process stopped at a call; nothing before the call touches
    an argument register. *)
Definition x86_64_call_session : Gdb :=
  session ("elf64-x86-64", 64)
    [("rdi", 0x11); ("rsi", 0x22); ("rdx", 0x33); ("rcx", 0x44);
     ("r8", 0x55); ("r9", 0x66); ("pc", 0x401150)] [] [] [] []
    [(Some 0x40114b, "   nop")].

(** A PowerPC process stopped at a branch-and-link. *)
Definition ppc_session : Gdb :=
  session ("elf32-powerpc", 32)
    [("r3", 1); ("r4", 2); ("pc", 0x10000450)] [] [] [] []
    [(Some 0x1000044c, "   li      r3,1")].

(** readelf output with BIND_NOW but no GNU_RELRO segment. *)
Definition bind_now_lib : Lib :=
  lib [] []
    ("  Type:                              DYN (Shared object file)"
     +:+ LF +:+ "  GNU_STACK      0x000000 0x00000000 0x00000000 0x00000 0x00000 RW  0x10"
     +:+ LF +:+ " 0x0000000000000018 (BIND_NOW)           "
     +:+ LF).

End Demo.

Import Demo.

(** ** The wrappers over gdb's answers, and the eflags writer *)

(** [s.lower()] on code points below 256: the letters A-Z and the
    capital letters of Latin-1 (all of 192-222 but the multiplication
    sign) move up by 32. *)
Definition lower_char (c : ascii) : ascii :=
  let n := nat_of_ascii c in
  if ((65 <=? n) && (n <=? 90)
      || (192 <=? n) && (n <=? 222) && negb (n =? 215))%nat
  then ascii_of_nat (n + 32)
  else c.

Fixpoint lower (s : string) : string :=
  match s with
  | EmptyString => EmptyString
  | String c s' => String (lower_char c) (lower s')
  end.

(** [s[:-1]]. *)
Fixpoint drop_last (s : string) : string :=
  match s with
  | EmptyString => EmptyString
  | String c EmptyString => EmptyString
  | String c s' => String c (drop_last s')
  end.

(** [PEDA.getarch], [PEDA.intsize], [PEDA.getregs] and [PEDA.getreg]
    as functions of gdb's raw answers.  ([getarch] and [intsize] are
    memoized in the source: the first answer is the one kept.) *)
Module Wrappers.

Section Wrappers.

Context (L : Lib) (g : Gdb).

(** The [for ... break] of [getarch]: the last word, less its last
    character, of the first line that names the file type. *)
Fixpoint file_type (lines : list string) : Res string :=
  match lines with
  | [] => Ok "unknown"
  | line :: rest =>
      if contains "file type" line
      then let* w := last_item (words line) in Ok (drop_last w)
      else file_type rest
  end.

Definition getarch : Res (string * Z) :=
  match execute g "show architecture" with
  | None => Raise TypeError
  | Some gdb_arch =>
      if contains "i386:x86-64" gdb_arch then Ok ("elf64-x86-64", 64)
      else if contains "i386" gdb_arch then Ok ("elf32-i386", 32)
      else if contains "arm" gdb_arch then Ok ("elf32-littlearm", 32)
      else if contains "aarch64" gdb_arch then Ok ("elf64-littleaarch64", 64)
      else
        match execute g "maintenance info sections ?" with
        | None => Raise AttributeError
        | Some out =>
            let* arch := file_type (splitlines out) in
            let bits := if contains "64" arch then 64 else 32 in
            Ok (arch, bits)
        end
  end.

Definition intsize : Res Z :=
  let* ab := getarch in Ok (ab.2 `div` 8).

(** One line of [info registers] on a target other than MIPS. *)
Definition register_line (result : gmap string (option Z)) (r : string)
  : gmap string (option Z) :=
  match words r with
  | name :: w :: _ =>
      match to_int L (VStr w) with
      | Some v => <[name := Some v]> result
      | None => result
      end
  | _ => result
  end.

(** [dict(zip(klist, vlist))]: of two pairs with one key the later one
    stays. *)
Definition dict_of_pairs (kvs : list (string * option Z))
  : gmap string (option Z) :=
  fold_left (fun d kv => <[kv.1 := kv.2]> d) kvs ∅.

Definition getregs (reglist : option string)
  : Res (option (gmap string (option Z))) :=
  let reglist :=
    match reglist with
    | Some (String c s) => replace (String c s) "," " "
    | _ => EmptyString
    end in
  match execute g ("info registers " +:+ reglist) with
  | None | Some EmptyString => Ok None
  | Some regs =>
      let* ab := getarch in
      if contains "mips" ab.1 then
        let tmp := splitlines regs in
        let* k0 := index tmp 0 in
        let* k2 := index tmp 2 in
        let* k4 := index tmp 4 in
        let* k6 := index tmp 6 in
        let* k8 := index tmp 8 in
        let* k10 := index tmp 10 in
        let klist :=
          (words k0 ++ words k2 ++ words k4 ++ words k6 ++ words k8
           ++ words k10)%list in
        let* v1 := index tmp 1 in
        let* v3 := index tmp 3 in
        let* v5 := index tmp 5 in
        let* v7 := index tmp 7 in
        let* v9 := index tmp 9 in
        let* v11 := index tmp 11 in
        let vlist :=
          (List.tl (words v1) ++ List.tl (words v3) ++ List.tl (words v5)
           ++ List.tl (words v7) ++ words v9 ++ words v11)%list in
        let vlist := map (fun v => to_int L (VStr ("0x" +:+ v))) vlist in
        Ok (Some (dict_of_pairs (zip klist vlist)))
      else
        Ok (Some (fold_left register_line (splitlines regs) ∅))
  end.

Definition getreg (register : string) : Res (option Z) :=
  let r := lower register in
  match execute g ("info registers " +:+ r) with
  | None | Some EmptyString => Ok None
  | Some regs =>
      let regs := splitlines regs in
      if (1 <? length regs)%nat then Ok None
      else
        let* line := index regs 0 in
        let* w := index (words line) 1 in
        Ok (to_int L (VStr w))
  end.

End Wrappers.

End Wrappers.

Section Writers.

Context (L : Lib) (g : Gdb).

(** The names [set_eflags] accepts, with the keys of the flag dict. *)
Definition EFLAGS_NAMES : list (string * string) :=
  [("carry", "CF"); ("parity", "PF"); ("adjust", "AF"); ("zero", "ZF");
   ("sign", "SF"); ("trap", "TF"); ("interrupt", "IF"); ("direction", "DF");
   ("overflow", "OF")].

(** [eval("EFLAGS_%s" % key)] among the masks local to [set_eflags]. *)
Definition eflags_mask (key : string) : Res Z :=
  if String.eqb key "CF" then Ok (1 ≪ 0)
  else if String.eqb key "PF" then Ok (1 ≪ 2)
  else if String.eqb key "AF" then Ok (1 ≪ 4)
  else if String.eqb key "ZF" then Ok (1 ≪ 6)
  else if String.eqb key "SF" then Ok (1 ≪ 7)
  else if String.eqb key "TF" then Ok (1 ≪ 8)
  else if String.eqb key "IF" then Ok (1 ≪ 9)
  else if String.eqb key "DF" then Ok (1 ≪ 10)
  else if String.eqb key "OF" then Ok (1 ≪ 11)
  else Raise (NameError ("EFLAGS_" +:+ key)).

(** [set_eflags(flagname, value)], with [value] one of [True], [False]
    and [None] (toggle).  The result is the value returned and the
    command sent to gdb, if any; the command succeeds when gdb raises
    nothing. *)
Definition set_eflags (flagname : string) (value : option bool)
  : Res (bool * option string) :=
  let flagname := lower flagname in
  match dict_get EFLAGS_NAMES flagname with
  | None => Ok (false, None)
  | Some key =>
      match get_eflags g with
      | None => Ok (false, None)
      | Some eflags =>
          if bool_decide (eflags = ∅) then Ok (false, None) else
          let* differs :=
            match value with
            | None => Ok true
            | Some b => let* cur := getitem eflags key in Ok (negb (Bool.eqb cur b))
            end in
          if differs then
            let* reg_eflags := int_of (getreg g "eflags") in
            let* mask := eflags_mask key in
            let reg_eflags := Z.lxor reg_eflags mask in
            let cmd := "set $eflags = " +:+ fmt_hex reg_eflags in
            Ok (bool_decide (execute g cmd <> None), Some cmd)
          else Ok (true, None)
      end
  end.

(** [sorted(hlist, key=lambda x: x[1][0])]: a stable sort by section
    start. *)
Fixpoint insert_by_start (x : string * header) (l : headers) : headers :=
  match l with
  | [] => [x]
  | y :: l' =>
      if (x.2.1.1 <=? y.2.1.1)%Z then x :: l else y :: insert_by_start x l'
  end.

Definition sorted_by_start (hs : headers) : headers :=
  foldr insert_by_start [] hs.

(** One range of the memory map of a program that is not running:
    (start, end, permission, mapname); the end is the end of a section,
    hence possibly [None]. *)
Definition offline_range : Type := Z * option Z * string * string.

(** [_get_offline_maps], the local function of [get_vmmap] used when
    there is no process: one range per kind of section. *)
Definition _get_offline_maps : Res (option (list offline_range)) :=
  match getfile g with
  | None | Some EmptyString => Ok None
  | Some name =>
      let* headers := elfheader L g None in
      let range (kind perm : string) : Res offline_range :=
        let hlist :=
          filter (fun x : string * header => x.2.2 = kind) headers in
        let hlist := sorted_by_start hlist in
        let* first := index hlist 0 in
        let* last := last_item hlist in
        Ok (first.2.1.1, last.2.1.2, perm, name) in
      let* code := range "code" "rx-p" in
      let* rodata := range "rodata" "r--p" in
      let* data := range "data" "rw-p" in
      Ok (Some [code; rodata; data])
  end.

End Writers.

(** ** Further vocabulary *)

(** A chain is linked when the payload of every entry, read as an
    integer, is the address of the entry after it. *)
Definition linked (L : Lib) (chain : list triple) : Prop :=
  forall (i : nat) (e e' : triple),
    chain !! i = Some e ->
    chain !! S i = Some e' ->
    exists n : Z, to_int L e.2 = Some n /\ to_int L (of_str e'.1.1) = Some n.

(** The opcodes the x86 evaluator knows. *)
Definition x86_conditions : list string :=
  ["ret"; "jmp"; "je"; "jne"; "jg"; "jge"; "ja"; "jae"; "jl"; "jle"; "jb";
   "jbe"; "jo"; "jno"; "jz"; "jnz"].

(** Conditional jumps that test opposite conditions. *)
Definition x86_opposites : list (string * string) :=
  [("je", "jne"); ("jz", "jne"); ("jg", "jle"); ("jge", "jl"); ("ja", "jbe");
   ("jae", "jb"); ("jo", "jno")].
Definition aarch64_opposites : list (string * string) :=
  [("b.eq", "b.ne"); ("b.cs", "b.cc"); ("b.mi", "b.pl"); ("b.ge", "b.lt")].
Definition arm_opposites : list (string * string) :=
  [("beq", "bne"); ("bcs", "bcc"); ("bmi", "bpl"); ("bge", "blt")].

(** Of two decisions exactly one is a taken jump; a taken jump comes with
    its decoded target, 0 standing for an unresolved one. *)
Definition one_taken (r r' : Res (bool * option Z)) (t t' : option Z) : Prop :=
  exists b : bool,
    r = Ok (if b then (true, Some (default 0 t)) else (false, None)) /\
    r' = Ok (if b then (false, None) else (true, Some (default 0 t'))).

(** The length of the leading run of [true]. *)
Fixpoint leading (written : list bool) : nat :=
  match written with
  | true :: rest => S (leading rest)
  | _ => 0%nat
  end.

(** The flag names of [set_eflags] with the bits of the x86 flags
    register they stand for. *)
Definition EFLAGS_BITS : list (string * Z) :=
  [("carry", 0); ("parity", 2); ("adjust", 4); ("zero", 6); ("sign", 7);
   ("trap", 8); ("interrupt", 9); ("direction", 10); ("overflow", 11)].

(** A line of [info registers] gives register [name] the value [n]:
    its first word is the name and its second word converts to [n]. *)
Definition names_register (L : Lib) (line name : string) (n : Z) : Prop :=
  exists (w : string) (rest : list string),
    words line = name :: w :: rest /\ to_int L (VStr w) = Some n.

(** A register dict holds, for every register, the value of the last line
    that gives it one, and nothing else. *)
Definition last_line_wins (L : Lib) (lines : list string)
    (regs : gmap string (option Z)) : Prop :=
  forall (name : string) (v : option Z),
    regs !! name = Some v <->
    exists (before after : list string) (line : string) (n : Z),
      lines = (before ++ line :: after)%list /\
      names_register L line name n /\
      v = Some n /\
      Forall (fun l => forall n', ~ names_register L l name n') after.

(** Every section of kind [kind] starts at or after [start]. *)
Definition starts_from (hs : headers) (kind : string) (start : Z) : Prop :=
  forall (k : string) (s : Z) (e : option Z),
    (k, (s, e, kind)) ∈ hs -> start <= s.

(** ** Further concrete collaborators *)

Module Scenes.

(** A jump through a 16-bit memory operand. *)
Definition word_jump_text : string := "jmp    WORD PTR [rax]".
Definition word_lib : Lib :=
  lib [(PTR_OPERAND, word_jump_text,
        [Some "WORD"; Some "[rax]"; Some "rax"; None])] [] EmptyString.

(** The instructions before a call on x86-64 when only rsi is written. *)
Definition rsi_code : string := "0x40114b:   mov    rsi,rax" +:+ LF.
Definition rsi_lib : Lib :=
  lib []
    [(":\s*([^ ]*)\s*(.*),", rsi_code, [["mov"; "rsi"]]);
     ("di|si|dx|cx|r8|r9", "rsi", [["si"]])]
    EmptyString.

(** gdb's answers about the architecture and the registers of an
    x86-64 process. *)
Definition registers_text : string :=
  "rax            0x1c                28" +:+ LF
  +:+ "rbx            0x0                 0" +:+ LF
  +:+ "rax            0x2a                42" +:+ LF.
Definition answers_session : Gdb :=
  session ("elf64-x86-64", 64) [("eflags", 0x246)] [] [] []
    [("show architecture",
      "The target architecture is assumed to be i386:x86-64" +:+ LF);
     ("info registers ", registers_text);
     ("info registers rbx", "rbx            0x0                 0" +:+ LF)]
    [].

(** A program with one section of each kind and no mapping known. *)
Definition three_sections_text : string :=
  " [0] 0x00400000->0x00400100 at 0x00000000: .text ALLOC LOAD READONLY CODE"
  +:+ LF
  +:+ " [1] 0x00400100->0x00400180 at 0x00000100: .rodata ALLOC LOAD READONLY DATA"
  +:+ LF
  +:+ " [2] 0x00600000->0x00600010 at 0x00001000: .data ALLOC LOAD DATA"
  +:+ LF.
Definition three_sections_lib : Lib :=
  lib []
    [(SECTION_LINE, three_sections_text,
      [["0x00400000"; "0x00400100"; "0x00000000"; ".text";
        "ALLOC LOAD READONLY CODE"];
       ["0x00400100"; "0x00400180"; "0x00000100"; ".rodata";
        "ALLOC LOAD READONLY DATA"];
       ["0x00600000"; "0x00600010"; "0x00001000"; ".data";
        "ALLOC LOAD DATA"]])]
    EmptyString.
Definition three_sections_session : Gdb :=
  session ("elf64-x86-64", 64) [] [] [] []
    [("maintenance info sections", three_sections_text)] [].

End Scenes.

Import Scenes.

(** * Properties *)

(** ** Control-flow evaluation *)

Section ControlFlow.

Context (L : Lib).

Lemma get_eflags_Some (g : Gdb) (flags : gmap string bool) :
  get_eflags g = Some flags ->
  exists eflags : Z,
    getreg g "eflags" = Some eflags /\ eflags <> 0 /\ flags = eflags_dict eflags.
Proof.
  unfold get_eflags. destruct (getreg g "eflags") as [e|]; [|done].
  destruct (Z.eqb_spec e 0); [done|]. intros [= <-]. eauto.
Qed.

Lemma get_aarch64_cpsr_Some (g : Gdb) (flags : gmap string bool) :
  get_aarch64_cpsr g = Some flags ->
  exists cpsr : Z, getreg g "cpsr" = Some cpsr /\ flags = aarch64_cpsr_dict cpsr.
Proof.
  unfold get_aarch64_cpsr. destruct (getreg g "cpsr") as [c|]; [|done].
  intros [= <-]. eauto.
Qed.

Lemma get_cpsr_Some (g : Gdb) (flags : gmap string bool) :
  get_cpsr g = Some flags ->
  exists cpsr : Z, getreg g "cpsr" = Some cpsr /\ flags = cpsr_dict cpsr.
Proof.
  unfold get_cpsr. destruct (getreg g "cpsr") as [c|]; [|done].
  intros [= <-]. eauto.
Qed.

Lemma eflags_dict_nonempty (e : Z) : bool_decide (eflags_dict e = ∅) = false.
Proof. apply bool_decide_eq_false, insert_non_empty. Qed.

Lemma aarch64_cpsr_dict_nonempty (c : Z) :
  bool_decide (aarch64_cpsr_dict c = ∅) = false.
Proof. apply bool_decide_eq_false, insert_non_empty. Qed.

Lemma cpsr_dict_nonempty (c : Z) : bool_decide (cpsr_dict c = ∅) = false.
Proof. apply bool_decide_eq_false, insert_non_empty. Qed.

(** A one-bit mask tests that bit. *)
Lemma truthy_bit (n : Z) (i : Z) :
  0 <= i -> truthy (Z.land n (1 ≪ i)) = Z.testbit n i.
Proof.
  intros Hi. unfold truthy.
  destruct (Z.testbit n i) eqn:Hb.
  - apply negb_true_iff, Z.eqb_neq. intros H0.
    assert (Z.testbit (Z.land n (1 ≪ i)) i = true) as Ht.
    { rewrite Z.land_spec, Hb, Z.shiftl_spec by lia.
      rewrite Z.sub_diag. reflexivity. }
    rewrite H0, Z.bits_0 in Ht. discriminate.
  - apply negb_false_iff, Z.eqb_eq. apply Z.bits_inj'. intros j Hj.
    rewrite Z.land_spec, Z.bits_0, Z.shiftl_spec by lia.
    destruct (Z.eq_dec j i) as [->|Hne]; [by rewrite Hb|].
    replace (Z.testbit 1 (j - i)) with false; [by rewrite andb_false_r|].
    symmetry. destruct (Z.lt_ge_cases j i).
    + apply Z.testbit_neg_r. lia.
    + apply Z.bits_above_log2; simpl; lia.
Qed.

(** Replace the flag values by variables, evaluate the dictionary
    lookups and the comparisons of the opcode, and split on the flags the
    condition really reads. *)
Ltac flag_cases :=
  repeat match goal with
         | |- context [truthy ?x] =>
             let b := fresh "b" in generalize (truthy x); intro b
         end;
  vm_compute;
  repeat match goal with
         | |- context [match ?b with _ => _ end] => is_var b; destruct b
         end;
  try reflexivity.

(** C9: the decision follows the condition table.  On x86 [je] is taken
    exactly when ZF is set and [jge] exactly when SF equals OF; on AArch64
    [b.le] is taken exactly when Z is set and N differs from V.  The flags
    are the bits of the status register, and a taken jump comes with the
    target [eval_target] decoded; in particular [je] with ZF set returns
    [(True, target)]. *)
Theorem branch_condition_table (g g' : Gdb) (inst_je inst_jge inst_ble : string)
    (flags cflags : gmap string bool) (t_je t_jge t_ble : option Z) :
  get_eflags g = Some flags ->
  get_aarch64_cpsr g' = Some cflags ->
  eval_target L g "je" inst_je = Ok t_je ->
  eval_target L g "jge" inst_jge = Ok t_jge ->
  eval_target L g' "b.le" inst_ble = Ok t_ble ->
  exists (eflags cpsr : Z) (zf sf ovf z n v : bool),
    getreg g "eflags" = Some eflags /\ getreg g' "cpsr" = Some cpsr /\
    zf = Z.testbit eflags 6 /\ sf = Z.testbit eflags 7 /\
    ovf = Z.testbit eflags 11 /\
    z = Z.testbit cpsr 30 /\ n = Z.testbit cpsr 31 /\ v = Z.testbit cpsr 28 /\
    flags !! "ZF" = Some zf /\ flags !! "SF" = Some sf /\
    flags !! "OF" = Some ovf /\
    cflags !! "Z" = Some z /\ cflags !! "N" = Some n /\ cflags !! "V" = Some v /\
    testjump L g "je" inst_je
    = Ok (if zf then (true, Some (default 0 t_je)) else (false, None)) /\
    testjump L g "jge" inst_jge
    = Ok (if Bool.eqb sf ovf then (true, Some (default 0 t_jge))
          else (false, None)) /\
    aarch64_testjump L g' "b.le" inst_ble
    = Ok (if z && negb (Bool.eqb n v) then (true, Some (default 0 t_ble))
          else (false, None)) /\
    (forall a : Z, zf = true -> t_je = Some a ->
                   testjump L g "je" inst_je = Ok (true, Some a)).
Proof.
  intros Hf Hc Hje Hjge Hble.
  destruct (get_eflags_Some _ _ Hf) as (e & He & Hne & ->).
  destruct (get_aarch64_cpsr_Some _ _ Hc) as (c & Hcp & ->).
  exists e, c, (Z.testbit e 6), (Z.testbit e 7), (Z.testbit e 11),
    (Z.testbit c 30), (Z.testbit c 31), (Z.testbit c 28).
  assert (testjump L g "je" inst_je
          = Ok (if Z.testbit e 6 then (true, Some (default 0 t_je))
                else (false, None))) as Eje.
  { unfold testjump. rewrite Hf, eflags_dict_nonempty, Hje.
    rewrite <- (truthy_bit e 6) by lia. unfold eflags_dict.
    change (1 ≪ 6) with EFLAGS_ZF. flag_cases. }
  repeat split; try done.
  - rewrite <- (truthy_bit e 6) by lia. reflexivity.
  - rewrite <- (truthy_bit e 7) by lia. reflexivity.
  - rewrite <- (truthy_bit e 11) by lia. reflexivity.
  - rewrite <- (truthy_bit c 30) by lia. reflexivity.
  - rewrite <- (truthy_bit c 31) by lia. reflexivity.
  - rewrite <- (truthy_bit c 28) by lia. reflexivity.
  - unfold testjump. rewrite Hf, eflags_dict_nonempty, Hjge.
    rewrite <- (truthy_bit e 7), <- (truthy_bit e 11) by lia.
    unfold eflags_dict.
    change (1 ≪ 7) with EFLAGS_SF. change (1 ≪ 11) with EFLAGS_OF.
    flag_cases.
  - unfold aarch64_testjump. rewrite Hc, aarch64_cpsr_dict_nonempty, Hble.
    rewrite <- (truthy_bit c 30), <- (truthy_bit c 31), <- (truthy_bit c 28)
      by lia.
    unfold aarch64_cpsr_dict.
    change (1 ≪ 30) with CPSR_Z. change (1 ≪ 31) with CPSR_N.
    change (1 ≪ 28) with CPSR_V.
    flag_cases.
  - intros a Hz ->. rewrite Eje, Hz. reflexivity.
Qed.

(** C10: [jnz] is reported taken exactly when OF is set, whereas its
    synonym [jne] is taken exactly when ZF is clear; with both flags clear
    the two spellings of one instruction get different answers. *)
Theorem jnz_tests_overflow_flag (g : Gdb) (inst_jnz inst_jne : string)
    (flags : gmap string bool) (t_jnz t_jne : option Z) :
  get_eflags g = Some flags ->
  eval_target L g "jnz" inst_jnz = Ok t_jnz ->
  eval_target L g "jne" inst_jne = Ok t_jne ->
  exists zf ovf : bool,
    flags !! "ZF" = Some zf /\ flags !! "OF" = Some ovf /\
    rmap fst (testjump L g "jnz" inst_jnz) = Ok ovf /\
    rmap fst (testjump L g "jne" inst_jne) = Ok (negb zf) /\
    (zf = false -> ovf = false ->
     rmap fst (testjump L g "jnz" inst_jnz) = Ok false /\
     rmap fst (testjump L g "jne" inst_jne) = Ok true).
Proof.
  intros Hf Hnz Hne.
  destruct (get_eflags_Some _ _ Hf) as (e & He & Hn0 & ->).
  exists (truthy (Z.land e EFLAGS_ZF)), (truthy (Z.land e EFLAGS_OF)).
  assert (rmap fst (testjump L g "jnz" inst_jnz)
          = Ok (truthy (Z.land e EFLAGS_OF))) as E1.
  { unfold testjump. rewrite Hf, eflags_dict_nonempty, Hnz.
    unfold eflags_dict. flag_cases. }
  assert (rmap fst (testjump L g "jne" inst_jne)
          = Ok (negb (truthy (Z.land e EFLAGS_ZF)))) as E2.
  { unfold testjump. rewrite Hf, eflags_dict_nonempty, Hne.
    unfold eflags_dict. flag_cases. }
  split; [reflexivity|]. split; [reflexivity|].
  split; [exact E1|]. split; [exact E2|].
  intros Hz Ho. rewrite Hz in E2. rewrite Ho in E1. by split.
Qed.



Lemma prefix_app (p s : string) :
  String.prefix p s = true -> exists rest : string, s = p +:+ rest.
Proof.
  revert s. induction p as [|c p IH]; intros s.
  - intros _. by exists s.
  - destruct s as [|c' s]; simpl; [done|].
    destruct (ascii_dec c c') as [<-|]; [|done].
    intros [rest ->]%IH. by exists rest.
Qed.

(** C5: the overflow conditions read a flag named O, which neither
    [get_aarch64_cpsr] nor [get_cpsr] provides (the overflow flag is V):
    for [b.vs] and [b.vc] on AArch64, and for every ARM opcode that starts
    with [bvs] or [bvc], the evaluators raise [KeyError] instead of
    returning a pair. *)
Theorem overflow_conditions_raise (g : Gdb) (inst : string) (cpsr : Z)
    (aarch64_opcode arm_opcode : string) (t1 t2 : option Z) :
  getreg g "cpsr" = Some cpsr ->
  aarch64_opcode = "b.vs" \/ aarch64_opcode = "b.vc" ->
  startswith arm_opcode "bvs" || startswith arm_opcode "bvc" = true ->
  eval_target L g aarch64_opcode inst = Ok t1 ->
  eval_target L g arm_opcode inst = Ok t2 ->
  aarch64_testjump L g aarch64_opcode inst = Raise (KeyError "O") /\
  arm_testjump L g arm_opcode inst = Raise (KeyError "O").
Proof.
  intros Hc H64 H32 H1 H2.
  unfold aarch64_testjump, arm_testjump, get_aarch64_cpsr, get_cpsr.
  rewrite Hc, H1, H2. cbn [fmap option_fmap option_map].
  rewrite aarch64_cpsr_dict_nonempty, cpsr_dict_nonempty.
  unfold aarch64_cpsr_dict, cpsr_dict. split.
  - destruct H64 as [-> | ->]; flag_cases.
  - assert (String.eqb arm_opcode "b" = false
            /\ Forall (fun p => startswith arm_opcode p = false)
                      ["beq"; "bne"; "bcs"; "bcc"; "bmi"; "bpl"]
            /\ (startswith arm_opcode "bvs" = true
                \/ startswith arm_opcode "bvs" = false
                   /\ startswith arm_opcode "bvc" = true))
      as (Hb & Hearlier & Hov).
    { apply orb_true_iff in H32 as [H32|H32];
        destruct (prefix_app _ _ H32) as [rest ->];
        (split; [reflexivity|]); (split; [by repeat constructor|]);
        [by left|right]; split; [reflexivity|done]. }
    cbv beta zeta. rewrite Hb.
    repeat match goal with
           | H : Forall _ (_ :: _) |- _ =>
               apply Forall_cons in H as [-> H]
           end.
    destruct Hov as [-> | [-> ->]]; flag_cases.
Qed.

End ControlFlow.

(** The x86-64 scenario of C9: [je] with ZF set, and an AArch64 [b.le]. *)
Lemma branch_condition_table_witness :
  testjump x86_lib (x86_session 0x246 []) "je" je_text
  = Ok (true, Some 0x7ffff7e39570).
Proof.
  destruct (branch_condition_table x86_lib (x86_session 0x246 [])
              (aarch64_session 0xC0000000) je_text je_text ble_text
              (eflags_dict 0x246) (aarch64_cpsr_dict 0xC0000000)
              (Some 0x7ffff7e39570) (Some 0x7ffff7e39570) None
              eq_refl eq_refl eq_refl eq_refl eq_refl)
    as (e & c & zf & sf & ovf & z & n & v & He & _ & Hzf & _ & _ & _ & _ & _
        & _ & _ & _ & _ & _ & _ & _ & _ & _ & H).
  apply H; [|reflexivity].
  injection He as <-. rewrite Hzf. reflexivity.
Defined.

(** Flags IF only: ZF and OF are both clear. *)
Lemma jnz_tests_overflow_flag_witness :
  rmap fst (testjump x86_lib (x86_session 0x202 []) "jnz" "jnz    0x401000")
  = Ok false /\
  rmap fst (testjump x86_lib (x86_session 0x202 []) "jne" "jne    0x401000")
  = Ok true.
Proof.
  destruct (jnz_tests_overflow_flag x86_lib (x86_session 0x202 [])
              "jnz    0x401000" "jne    0x401000" (eflags_dict 0x202)
              (Some 0x401000) (Some 0x401000) eq_refl eq_refl eq_refl)
    as (zf & ovf & Hzf & Hovf & _ & _ & H).
  apply H.
  - vm_compute in Hzf. congruence.
  - vm_compute in Hovf. congruence.
Defined.



(** An AArch64 session stopped at [b.vs] with Z and C set. *)
Lemma overflow_conditions_raise_witness :
  aarch64_testjump aarch64_lib (aarch64_session 0x60000000) "b.vs" bvs_text
  = Raise (KeyError "O").
Proof.
  apply (overflow_conditions_raise aarch64_lib (aarch64_session 0x60000000)
           bvs_text 0x60000000 "b.vs" "bvs" None None);
    try reflexivity. by left.
Defined.

(** ** Hardening flags *)

Section Checksec.

Context (L : Lib) (g : Gdb).

Lemma lookup_if_insert_ne (c : bool) (k : string) (v : Z) (m : gmap string Z) :
  k <> "RELRO" ->
  (if c then <[k := v]> m else m) !! "RELRO" = m !! "RELRO".
Proof. intros Hk. destruct c; [by rewrite lookup_insert_ne|done]. Qed.

Lemma lookup_if_alter (c : bool) (f : Z -> Z) (m : gmap string Z) :
  (if c then alter f "RELRO" m else m) !! "RELRO"
  = (if c then f else id) <$> m !! "RELRO".
Proof.
  destruct c; [by rewrite lookup_alter_eq|].
  by destruct (m !! "RELRO").
Qed.

Lemma checksec_line_relro (result : gmap string Z) (line : string)
    (gnu_relro bind_now : bool) :
  result !! "RELRO" = Some (relro_value gnu_relro bind_now) ->
  checksec_line result line !! "RELRO"
  = Some (relro_value (gnu_relro || contains "GNU_RELRO" line)
                      (bind_now || contains "BIND_NOW" line)).
Proof.
  intros Hr. unfold checksec_line. cbv zeta.
  rewrite !lookup_if_insert_ne by done.
  rewrite !lookup_if_alter, Hr.
  destruct gnu_relro, bind_now, (contains "GNU_RELRO" line),
    (contains "BIND_NOW" line); reflexivity.
Qed.

Lemma checksec_lines_relro (lines : list string) (result : gmap string Z)
    (gnu_relro bind_now : bool) :
  result !! "RELRO" = Some (relro_value gnu_relro bind_now) ->
  fold_left checksec_line lines result !! "RELRO"
  = Some (relro_value (gnu_relro || existsb (contains "GNU_RELRO") lines)
                      (bind_now || existsb (contains "BIND_NOW") lines)).
Proof.
  revert result gnu_relro bind_now.
  induction lines as [|line lines IH]; intros result b1 b2 Hr; simpl.
  - by rewrite !orb_false_r.
  - rewrite (IH _ _ _ (checksec_line_relro _ line _ _ Hr)).
    by rewrite !orb_assoc.
Qed.

(** C7: whenever [checksec] reports at all (a file name is known and
    readelf printed no error), the RELRO value is 0, 2 or 3: 3 when both
    markers occur, 2 with GNU_RELRO alone, and 0 otherwise; BIND_NOW
    without GNU_RELRO gives 0. *)
Theorem checksec_relro (filename : option string) (name out : string) :
  match filename with None => getfile g | Some f => Some f end = Some name ->
  name <> EmptyString ->
  execute_external_command L
    (READELF L +:+ " -W -a " +:+ chr 34 +:+ name +:+ chr 34 +:+ " 2>&1") = out ->
  contains "Error:" out = false ->
  exists (result : gmap string Z) (relro : Z),
    checksec L g filename = Some result /\
    result !! "RELRO" = Some relro /\
    (relro = 0 \/ relro = 2 \/ relro = 3) /\
    relro = (if existsb (contains "GNU_RELRO") (splitlines out)
             then if existsb (contains "BIND_NOW") (splitlines out)
                  then 3 else 2
             else 0) /\
    (existsb (contains "BIND_NOW") (splitlines out) = true ->
     existsb (contains "GNU_RELRO") (splitlines out) = false ->
     relro = 0).
Proof.
  intros Hname Hne Hout Herr. unfold checksec. cbv zeta.
  rewrite Hname. destruct name as [|c name]; [done|].
  rewrite Hout, Herr.
  match goal with
  | |- context [fold_left checksec_line ?ls ?r0] =>
      pose proof (checksec_lines_relro ls r0 false false eq_refl) as Hfold;
      set (final := fold_left checksec_line ls r0) in *
  end.
  clearbody final. rewrite !orb_false_l in Hfold. rewrite Hfold.
  destruct (existsb (contains "GNU_RELRO") (splitlines out)),
    (existsb (contains "BIND_NOW") (splitlines out)).
  - exists final, 3. repeat split; auto; congruence.
  - exists final, 2. repeat split; auto; congruence.
  - exists (<["RELRO" := 0]> final), 0.
    repeat split; auto; apply lookup_insert_eq.
  - exists final, 0. repeat split; auto.
Qed.

End Checksec.

(** ** ELF sections *)

Section Elfheader.

Context (L : Lib) (g : Gdb).

Lemma elem_of_dict_set {V} (d : list (string * V)) (k k' : string) (v v' : V) :
  (k, v) ∈ dict_set d k' v' -> (k = k' /\ v = v') \/ (k, v) ∈ d.
Proof.
  induction d as [|[k0 v0] d IH]; simpl.
  - intros H. apply list_elem_of_singleton in H. injection H as -> ->.
    by left.
  - destruct (String.eqb k0 k').
    + intros [[= -> ->]|H]%elem_of_cons; [by left|].
      right. by apply elem_of_cons; right.
    + intros [->|H]%elem_of_cons.
      * right. apply elem_of_cons. by left.
      * destruct (IH H) as [?|?]; [by left|].
        right. by apply elem_of_cons; right.
Qed.

Lemma dict_get_elem_of {V} (d : list (string * V)) (k : string) (v : V) :
  dict_get d k = Some v -> (k, v) ∈ d.
Proof.
  induction d as [|[k0 v0] d IH]; simpl; [done|].
  destruct (String.eqb_spec k0 k) as [->|].
  - intros [= ->]. apply elem_of_cons. by left.
  - intros H. apply elem_of_cons. right. auto.
Qed.

Lemma elfheader_step_origin (elfinfo elfinfo' : headers) (row : list string)
    (entry : string * header) :
  elfheader_step L g elfinfo row = Ok elfinfo' ->
  entry ∈ elfinfo' ->
  entry ∈ elfinfo \/ rebased_from L (elfbase g) row entry.
Proof.
  unfold elfheader_step. generalize (elfbase g). intros B.
  destruct row as [|start [|end_ [|offset [|hname [|attr [|? ?]]]]]]; try done.
  destruct (to_int L (VStr start)) as [s0|] eqn:Hs; [|done].
  destruct (to_int L (VStr offset)) as [o0|] eqn:Ho; [|done].
  cbn. destruct (Z.ltb_spec s0 o0) as [|Hso]; [intros [= <-]; by left|].
  destruct (Z.ltb_spec s0 B) as [Hlt|Hge].
  - destruct (to_int L (VStr end_)) as [e0|] eqn:He; [|done].
    cbn. intros [= <-]. destruct entry as [k [[s e] t]].
    intros [[-> [= -> -> ->]]|H]%elem_of_dict_set; [|by left].
    right. exists start, end_, offset, hname, attr, s0, o0.
    repeat split; try done; cbn.
    + destruct (Z.ltb_spec s0 B); [|lia]. eauto.
    + lia.
    + intros e0' e1 He0 [= <-]. rewrite He in He0. injection He0 as <-. lia.
  - cbn. intros [= <-]. destruct entry as [k [[s e] t]].
    intros [[-> [= -> -> ->]]|H]%elem_of_dict_set; [|by left].
    right. exists start, end_, offset, hname, attr, s0, o0.
    repeat split; try done; cbn; try lia.
    + destruct (Z.ltb_spec s0 B); [lia|]. done.
    + intros e0' e1 He0 He1. rewrite He0 in He1. injection He1 as <-. lia.
Qed.

Lemma elfheader_loop_origin (matches : list (list string))
    (elfinfo elfinfo' : headers) (entry : string * header) :
  elfheader_loop L g elfinfo matches = Ok elfinfo' ->
  entry ∈ elfinfo' ->
  entry ∈ elfinfo \/
  exists row, row ∈ matches /\ rebased_from L (elfbase g) row entry.
Proof.
  revert elfinfo. induction matches as [|row rest IH]; intros elfinfo; simpl.
  - intros [= <-]. by left.
  - destruct (elfheader_step L g elfinfo row) as [mid|] eqn:Hstep; [|done].
    cbn. intros Hloop Hin.
    destruct (IH _ Hloop Hin) as [Hmid|(row' & Hrow & Hfrom)].
    + destruct (elfheader_step_origin _ _ _ _ Hstep Hmid) as [?|?];
        [by left|].
      right. exists row. split; [apply elem_of_cons; by left|done].
    + right. exists row'. split; [apply elem_of_cons; by right|done].
Qed.

(** C2, as the code has it: every section [elfheader] returns comes from a
    matched line of gdb's section listing whose start is not below its file
    offset; its start and end are the parsed ones plus the load base (the
    start of the binary's first mapping) when the parsed start is below
    that base, and the parsed ones otherwise; they are never below the
    parsed ones. *)
Theorem elfheader_rebase (name : option string) (hs : headers)
    (entry : string * header) :
  elfheader L g name = Ok hs ->
  entry ∈ hs ->
  exists (out : string) (row : list string),
    execute g "maintenance info sections" = Some out /\
    row ∈ re_findall L SECTION_LINE out /\
    rebased_from L (elfbase g) row entry.
Proof.
  unfold elfheader.
  destruct (execute g "maintenance info sections") as [[|c out]|] eqn:Hout.
  - intros [= <-] Hin. by apply elem_of_nil in Hin.
  - destruct (elfheader_loop L g [] _) as [elfinfo|] eqn:Hloop; [|done].
    cbn. intros Hres Hin.
    assert (entry ∈ elfinfo) as Hin'.
    { destruct name as [name|]; [|by injection Hres as <-].
      destruct (dict_get elfinfo name) as [v|] eqn:Hget.
      - injection Hres as <-.
        apply list_elem_of_singleton in Hin as ->.
        by apply dict_get_elem_of.
      - injection Hres as <-. by apply list_elem_of_filter in Hin as [_ ?]. }
    destruct (elfheader_loop_origin _ _ _ _ Hloop Hin')
      as [Hnil|(row & Hrow & Hfrom)].
    + by apply elem_of_nil in Hnil.
    + exists (String c out), row. done.
  - intros [= <-] Hin. by apply elem_of_nil in Hin.
Qed.

End Elfheader.

(** C2 as stated fails.  A binary linked at 0x10000 and loaded at
    0x555555554000 has its [.text] moved by the whole load base, not by the
    difference of the two bases; and for a binary linked at 0 and loaded at
    0x1000, a section lying above the load base is not moved at all. *)
Lemma elfheader_ignores_link_base :
  (let B := 0x555555554000 in
   let Lb := 0x10000 in
   Lb <= B /\
   elfbase pie_session = B /\
   elfheader pie_lib pie_session None
   = Ok [(".text", (0x555555565040, Some 0x555555565200, "code"))] /\
   0x555555565040 <> 0x11040 + (B - Lb) /\
   0x555555565200 <> 0x11200 + (B - Lb)) /\
  (let B := 0x1000 in
   let Lb := 0 in
   Lb <= B /\
   elfbase low_pie_session = B /\
   elfheader low_pie_lib low_pie_session None
   = Ok [(".data", (0x4010, Some 0x4020, "data"))] /\
   0x4010 <> 0x4010 + (B - Lb) /\
   0x4020 <> 0x4020 + (B - Lb)).
Proof. repeat split; try reflexivity; try discriminate. Qed.

Lemma elfheader_rebase_witness :
  exists (out : string) (row : list string),
    execute pie_session "maintenance info sections" = Some out /\
    row ∈ re_findall pie_lib SECTION_LINE out /\
    rebased_from pie_lib (elfbase pie_session) row
      (".text", (0x555555565040, Some 0x555555565200, "code")).
Proof.
  apply (elfheader_rebase pie_lib pie_session None
           [(".text", (0x555555565040, Some 0x555555565200, "code"))]).
  - reflexivity.
  - apply list_elem_of_singleton. reflexivity.
Defined.

(** ** Value classification *)

Section Classifier.

Context (L : Lib) (g : Gdb).

Lemma find_outside (value : Z) (maps : list vmrange) :
  Forall (fun r : vmrange => ~ (r.1.1.1 <= value < r.1.1.2)) maps ->
  find (fun '(start, end_, perm, mapname) =>
          (start <=? value)%Z && (end_ >? value)%Z) maps = None.
Proof.
  induction 1 as [|[[[start end_] perm] mapname] maps Hr _ IH]; [done|].
  simpl in *. rewrite IH.
  destruct (Z.leb_spec start value), (Z.gtb_spec end_ value); simpl; try done.
  exfalso. apply Hr. lia.
Qed.

(** C8, as the code has it: a value that lies in none of the ranges of a
    non-empty memory map is an immediate with an empty payload; when no
    map is available the classifier probes the memory instead, and the
    value is an immediate exactly when the probe fails: a failed probe
    gives the immediate with its empty payload, and no result of kind
    ["value"] comes with a successful probe. *)
Theorem value_outside_maps (value : Z) :
  match get_vmmap g None with
  | Some (r :: rs) =>
      Forall (fun r : vmrange => ~ (r.1.1.1 <= value < r.1.1.2)) (r :: rs) ->
      examine_mem_value L g (Some value)
      = Ok (Some (to_hex L value), Some "value", VStr EmptyString)
  | _ =>
      (read_memory g value 1 = None ->
       examine_mem_value L g (Some value)
       = Ok (Some (to_hex L value), Some "value", VStr EmptyString)) /\
      (forall (v : option string) (vn : Py.value),
         examine_mem_value L g (Some value) = Ok (v, Some "value", vn) ->
         read_memory g value 1 = None)
  end.
Proof.
  assert (get_vmrange g (Some value) None = None ->
          examine_mem_value L g (Some value)
          = Ok (Some (to_hex L value), Some "value", VStr EmptyString))
    as Himm.
  { intros Hr. unfold examine_mem_value, is_address. by rewrite Hr. }
  assert (forall (v : option string) (vn : Py.value),
            (get_vmmap g None = None \/ get_vmmap g None = Some []) ->
            examine_mem_value L g (Some value) = Ok (v, Some "value", vn) ->
            read_memory g value 1 = None) as Hconv.
  { intros v vn Hmap.
    destruct (read_memory g value 1) as [bs|] eqn:Hprobe; [|done].
    assert (get_vmrange g (Some value) None
            = Some (Z.land value 0xfffffffffffff000,
                    Z.land value 0xfffffffffffff000 + 0x1000,
                    "rwx", "unknown")) as Hr.
    { unfold get_vmrange. destruct Hmap as [-> | ->]; by rewrite Hprobe. }
    unfold examine_mem_value, is_address, is_writable. rewrite Hr.
    rewrite bool_decide_eq_true_2 by done.
    change (contains "w" "rwx") with true. cbn [negb].
    destruct (examine_data L g value) as [out|]; [|done]. cbn [Py.bind].
    destruct out; [done|..];
      destruct (get_vmmap g (Some "heap")) as [[|[[[hs he] ?] ?] ?]|];
      try destruct (_ && _); done. }
  destruct (get_vmmap g None) as [[|r rs]|] eqn:Hmap.
  - split.
    + intros Hprobe. apply Himm. unfold get_vmrange. by rewrite Hmap, Hprobe.
    + intros v vn. apply Hconv. by right.
  - intros Hout. apply Himm. unfold get_vmrange. rewrite Hmap.
    by apply find_outside.
  - split.
    + intros Hprobe. apply Himm. unfold get_vmrange. by rewrite Hmap, Hprobe.
    + intros v vn. apply Hconv. by left.
Qed.

End Classifier.

(** C8 as stated fails: with no memory map at hand no range is known, yet a
    readable value is classified as data. *)
Lemma readable_value_without_maps :
  get_vmmap mapless_session None = Some [] /\
  examine_mem_value plain_lib mapless_session (Some 0x601000)
  = Ok (Some "0x601000", Some "data", VInt 0x2a).
Proof. split; reflexivity. Qed.

Lemma value_outside_maps_witness :
  examine_mem_value plain_lib ring_session (Some 0x42)
  = Ok (Some "0x42", Some "value", VStr EmptyString).
Proof.
  apply (value_outside_maps plain_lib ring_session 0x42).
  simpl. constructor; [simpl; lia|constructor].
Defined.

(** ** Reference chains *)

Section Walker.

Context (L : Lib) (g : Gdb).

(** Whatever the classifier returns with a payload carries the
    hexadecimal text of the value it was given. *)
Lemma examine_mem_value_text (a : Z) (v t : option string) (vn : value) :
  examine_mem_value L g (Some a) = Ok (v, t, vn) ->
  vn <> VNone ->
  v = Some (to_hex L a).
Proof.
  unfold examine_mem_value. intros H Hvn.
  repeat match type of H with
         | context [Py.bind ?m _] => destruct m; cbn in H
         | context [if ?b then _ else _] => destruct b
         | context [match ?x with _ => _ end] => destruct x
         end;
    congruence.
Qed.

Lemma mark_truncated_snoc (result : list triple) :
  result <> [] ->
  exists chain : list triple,
    mark_truncated result = Ok chain /\
    length chain = length result /\
    exists v t, last chain = Some (v, t, VStr TRUNCATED).
Proof.
  destruct result as [|x result _] using rev_ind; [done|]. intros _.
  unfold mark_truncated. rewrite rev_unit. destruct x as [[v t] vn].
  eexists. split; [reflexivity|]. simpl. rewrite rev_involutive.
  split; [by rewrite !length_app|].
  exists v, t. apply last_snoc.
Qed.

(** One turn of the loop on a payload that is not [None]. *)
Lemma loop_turn (fuel : nat) (depth : Z) (result : list triple)
    (v t : option string) (vn : value) :
  vn <> VNone ->
  examine_mem_reference_loop L g (S fuel) depth result (v, t, vn)
  = if (Z.of_nat (length result) >? depth)%Z
    then Some (mark_truncated result)
    else
      let result := (result ++ [(v, t, vn)])%list in
      if bool_decide (of_str v = vn)
         || bool_decide (to_int L (of_str v) = to_int L vn)
      then Some (Ok result)
      else
        match to_int L vn with
        | None => Some (Ok result)
        | Some n =>
            if bool_decide (Some n ∈ visited L result)
            then Some (Ok result)
            else
              match examine_mem_value L g (to_int L vn) with
              | Ok next => examine_mem_reference_loop L g fuel depth result next
              | Raise e => Some (Raise e)
              end
        end.
Proof. by destruct vn. Qed.

Lemma loop_on_cycle (addrs : list Z) (d : Z) :
  (forall n : Z, to_int L (VStr (to_hex L n)) = Some n) ->
  cyclic_structure L g addrs ->
  1 <= d ->
  forall (fuel k : nat) (result : list triple) (a : Z) (cur : triple),
    length result = k ->
    visited L result = Some <$> take k addrs ->
    addrs !! k = Some a ->
    examine_mem_value L g (Some a) = Ok cur ->
    Z.of_nat k <= d + 1 ->
    (length addrs <= fuel + k)%nat ->
    exists chain : list triple,
      examine_mem_reference_loop L g fuel d result cur = Some (Ok chain) /\
      (Nat.max 1 k <= length chain <= length addrs)%nat /\
      Z.of_nat (length chain) <= d + 1 /\
      (NoDup addrs -> d + 1 < Z.of_nat (length addrs) ->
       Z.of_nat (length chain) = d + 1 /\
       exists v t, last chain = Some (v, t, VStr TRUNCATED)).
Proof.
  intros Hrt Hcyc Hd. induction fuel as [|fuel IH];
    intros k result a cur Hlen Hvis Ha Hcur Hk Hfuel.
  { apply lookup_lt_Some in Ha. lia. }
  pose proof (lookup_lt_Some _ _ _ Ha) as HkN.
  destruct (Hcyc k a Ha) as (v & t & vn & b & Hex & Hvn & Hb & Hnext).
  rewrite (examine_mem_value_text _ _ _ _ Hex Hvn) in Hex.
  rewrite Hex in Hcur. injection Hcur as <-.
  rewrite loop_turn by done.
  destruct (Z.gtb_spec (Z.of_nat (length result)) d) as [Hgt|Hle].
  - (* the bound is hit: the last entry becomes the sentinel *)
    destruct (mark_truncated_snoc result) as (chain & -> & Hl & Hlast).
    { intros ->. simpl in *. lia. }
    exists chain. rewrite Hl.
    split; [done|]. split; [lia|]. split; [lia|]. intros _ _.
    split; [lia|done].
  - cbv zeta.
    set (result' := (result ++ [(Some (to_hex L a), t, vn)])%list).
    assert (length result' = S k) as Hlen'.
    { unfold result'. rewrite length_app. simpl. lia. }
    assert (visited L result' = Some <$> take (S k) addrs) as Hvis'.
    { unfold visited, result' in *. rewrite fmap_app, Hvis. simpl.
      rewrite Hrt, (take_S_r _ _ _ Ha), fmap_app. done. }
    assert ((exists j : nat, (j <= k)%nat /\ addrs !! j = Some b) ->
            exists chain : list triple,
              Some (Ok result') = Some (Ok chain) /\
              (Nat.max 1 k <= length chain <= length addrs)%nat /\
              Z.of_nat (length chain) <= d + 1 /\
              (NoDup addrs -> d + 1 < Z.of_nat (length addrs) ->
               Z.of_nat (length chain) = d + 1 /\
               exists v t, last chain = Some (v, t, VStr TRUNCATED)))
      as Hstop.
    { intros (j & Hj & Hjb). exists result'. rewrite Hlen'.
      split; [done|]. split; [lia|]. split; [lia|].
      intros Hnd HdN. exfalso.
      rewrite Nat.mod_small in Hnext by lia.
      pose proof (NoDup_lookup _ _ _ _ Hnd Hjb Hnext). lia. }
    simpl (of_str (Some _)). rewrite Hrt, Hb.
    destruct (bool_decide (VStr (to_hex L a) = vn)
              || bool_decide (Some a = Some b)) eqn:Hself.
    { apply Hstop. exists k. split; [lia|].
      apply orb_true_iff in Hself as [Heq|Heq];
        apply bool_decide_eq_true in Heq.
      - rewrite <- Heq, Hrt in Hb. congruence.
      - congruence. }
    rewrite Hvis'.
    destruct (bool_decide (Some b ∈ Some <$> take (S k) addrs)) eqn:Hseen.
    { apply Hstop.
      apply bool_decide_eq_true, list_elem_of_fmap_inj_2 in Hseen;
        [|apply _].
      apply elem_of_take in Hseen as (j & Hj & Hlt).
      exists j. split; [lia|done]. }
    apply bool_decide_eq_false in Hseen.
    assert (S k < length addrs)%nat as HSk.
    { destruct (decide (S k < length addrs)%nat) as [|Hn]; [done|].
      exfalso. apply Hseen, list_elem_of_fmap_2, elem_of_take.
      exists 0%nat. split; [|lia].
      replace (S k) with (length addrs) in Hnext by lia.
      by rewrite Nat.Div0.mod_same in Hnext. }
    rewrite Nat.mod_small in Hnext by lia.
    destruct (Hcyc (S k) b Hnext) as (v' & t' & vn' & b' & Hex' & _).
    rewrite Hex'.
    destruct (IH (S k) result' b _ Hlen' Hvis' Hnext Hex')
      as (chain & Hrun & Hc1 & Hc2 & Hc3); [lia|lia|].
    exists chain. split; [done|]. split; [lia|]. split; [lia|]. done.
Qed.

(** C6: on a cyclic pointer structure of N addresses the walk from the
    first address ends, given enough fuel for N turns, with a chain of at
    least one and at most N entries that never exceeds the depth bound
    plus one; a value that is its own pointer gives a chain of exactly one
    entry; and when the N addresses are distinct and more than the bound
    plus one, the chain has bound plus one entries, the last one carrying
    the truncation sentinel. *)
Theorem reference_chain_on_cycle (addrs : list Z) (a0 : Z) (depth : Z)
    (fuel : nat) :
  (forall n : Z, to_int L (VStr (to_hex L n)) = Some n) ->
  cyclic_structure L g addrs ->
  addrs !! 0%nat = Some a0 ->
  (length addrs <= fuel)%nat ->
  exists chain : list triple,
    examine_mem_reference L g fuel (Some a0) depth = Some (Ok chain) /\
    (1 <= length chain <= length addrs)%nat /\
    Z.of_nat (length chain) <= effective_depth depth + 1 /\
    (addrs = [a0] -> length chain = 1%nat) /\
    (NoDup addrs -> effective_depth depth + 1 < Z.of_nat (length addrs) ->
     Z.of_nat (length chain) = effective_depth depth + 1 /\
     exists v t, last chain = Some (v, t, VStr TRUNCATED)).
Proof.
  intros Hrt Hcyc Ha0 Hfuel. unfold examine_mem_reference.
  fold (effective_depth depth).
  assert (1 <= effective_depth depth) as Hd.
  { unfold effective_depth. destruct (Z.leb_spec depth 0); lia. }
  destruct (Hcyc 0%nat a0 Ha0) as (v & t & vn & b & Hex & _).
  rewrite Hex.
  destruct (loop_on_cycle addrs (effective_depth depth) Hrt Hcyc Hd
              fuel 0%nat [] a0 _ eq_refl eq_refl Ha0 Hex)
    as (chain & Hrun & Hc1 & Hc2 & Hc3); [lia|lia|].
  exists chain. split; [done|]. split; [lia|]. split; [lia|].
  split; [|done]. intros ->. simpl in Hc1. lia.
Qed.

End Walker.

(** A cycle of three words, walked with the default depth of 5. *)
Lemma reference_chain_on_cycle_witness :
  exists chain : list triple,
    examine_mem_reference plain_lib ring_session 10 (Some 0x601000) 5
    = Some (Ok chain) /\
    (1 <= length chain <= 3)%nat /\
    Z.of_nat (length chain) <= effective_depth 5 + 1.
Proof.
  destruct (reference_chain_on_cycle plain_lib ring_session
              [0x601000; 0x601010; 0x601020] 0x601000 5 10)
    as (chain & Hrun & Hlen & Hdepth & _).
  - intros n. simpl. unfold hex_to_int.
    by rewrite HexString.to_Z_of_Z, String.eqb_refl.
  - intros i a Hi.
    destruct i as [|[|[|i]]]; simpl in Hi; try discriminate;
      injection Hi as <-; eexists _, _, _, _;
      (split; [reflexivity|]); (split; [discriminate|]); split; reflexivity.
  - reflexivity.
  - simpl. lia.
  - exists chain. done.
Defined.

(** A word that holds its own address: the chain has exactly one entry. *)
Example self_pointer_chain :
  examine_mem_reference plain_lib ring_session 10 (Some 0x601030) 5
  = Some (Ok [(Some "0x601030", Some "data", VInt 0x601030)]).
Proof. reflexivity. Qed.

(** ** Argument inference *)

Section Arguments.

Context (L : Lib) (g : Gdb).

Lemma traverse_ext {A B} (f f' : A -> Res B) (l : list A) :
  (forall x, f x = f' x) -> traverse f l = traverse f' l.
Proof. intros Hf. induction l as [|x l IH]; simpl; [done|]. by rewrite Hf, IH. Qed.

Lemma traverse_length {A B} (f : A -> Res B) (l : list A) (ys : list B) :
  traverse f l = Ok ys -> length ys = length l.
Proof.
  revert ys. induction l as [|x l IH]; simpl; intros ys.
  - by intros [= <-].
  - destruct (f x) as [y|]; [|done]. cbn.
    destruct (traverse f l) as [ys'|]; [|done]. cbn.
    intros [= <-]. simpl. f_equal. by apply IH.
Qed.

(** C3, as the code has it for the stack convention: on i386 a forced
    count [n] other than 0 replaces the inference, and the result is the
    first [min(n, 6)] words above the stack pointer, whatever the
    instruction window contains (provided the window is not empty and can
    be scanned). *)
Theorem forced_count_i386 (n sp : Z) (regs : gmap string Z)
    (window : list (option Z * string)) (code : string) :
  getregs g = Some regs ->
  contains "aarch64" (getarch g).1 = false ->
  contains "i386" (getarch g).1 = true ->
  prev_inst g (getreg g "pc") 12 = Ok (Some window) ->
  window <> [] ->
  code_since "call" (List.rev window) EmptyString = Ok code ->
  n <> 0 ->
  getreg g "sp" = Some sp ->
  get_function_args L g (Some n)
  = traverse (fun i : nat => read_int L g (Some (sp + Z.of_nat i * 4)) (Some 4))
             (seq 0 (Z.to_nat (Z.min n 6))) /\
  forall args : list (option Z),
    get_function_args L g (Some n) = Ok args ->
    length args = Z.to_nat (Z.min n 6).
Proof.
  intros Hregs Ha64 Hi386 Hprev Hwin Hcode Hn Hsp.
  assert (get_function_args L g (Some n)
          = traverse (fun i : nat =>
                        read_int L g (Some (sp + Z.of_nat i * 4)) (Some 4))
                     (seq 0 (Z.to_nat (Z.min n 6)))) as E.
  { unfold get_function_args. rewrite Hregs, Hprev. cbn.
    destruct window as [|w window]; [done|].
    rewrite Ha64, Hcode, Hi386. cbn.
    unfold _get_function_args_32.
    destruct (Z.eqb_spec n 0) as [|_]; [done|].
    rewrite Hsp.
    destruct (Z.eqb_spec (Z.min n 6) 0) as [->|_]; [done|].
    apply traverse_ext. intros i. cbn.
    match goal with |- Py.bind ?m _ = _ => by destruct m end. }
  split; [exact E|].
  intros args Hargs. rewrite E in Hargs.
  apply traverse_length in Hargs. by rewrite length_seq in Hargs.
Qed.

(** C4: the PowerPC inference calls [findall] on a name [p] that is bound
    nowhere, so it raises [NameError] for every window and every forced
    count, and so does [get_function_args] on a PowerPC target whenever
    there is a window to scan. *)
Theorem ppc_inference_raises (argc : option Z) (regs : gmap string Z)
    (window : list (option Z * string)) (code : string) :
  getregs g = Some regs ->
  contains "aarch64" (getarch g).1 = false ->
  contains "i386" (getarch g).1 = false ->
  contains "64" (getarch g).1 = false ->
  contains "arm" (getarch g).1 = false ->
  contains "powerpc" (getarch g).1 = true ->
  prev_inst g (getreg g "pc") 12 = Ok (Some window) ->
  window <> [] ->
  code_since "call" (List.rev window) EmptyString = Ok code ->
  (forall code' argc', _get_function_args_ppc L g code' argc'
                       = Raise (NameError "p")) /\
  get_function_args L g argc = Raise (NameError "p").
Proof.
  intros Hregs Ha64 Hi386 H64 Harm Hppc Hprev Hwin Hcode.
  split; [reflexivity|].
  unfold get_function_args. rewrite Hregs, Hprev. cbn.
  destruct window as [|w window]; [done|].
  rewrite Ha64, Hcode, Hi386, H64, Harm, Hppc. reflexivity.
Qed.

End Arguments.

(** C3 as stated fails: a forced count of 7 yields six values on i386. *)
Lemma forced_count_is_capped :
  get_function_args plain_lib i386_session (Some 7)
  = Ok [Some 1; Some 2; Some 3; Some 4; Some 5; Some 6] /\
  length [Some 1; Some 2; Some 3; Some 4; Some 5; Some 6] <> 7%nat.
Proof. split; [reflexivity|discriminate]. Qed.

(** On x86-64 the forced count is not consulted at all. *)
Example forced_count_ignored_on_x86_64 :
  get_function_args plain_lib x86_64_call_session (Some 2) = Ok [].
Proof. reflexivity. Qed.

Lemma forced_count_i386_witness :
  get_function_args plain_lib i386_session (Some 2) = Ok [Some 1; Some 2].
Proof.
  destruct (forced_count_i386 plain_lib i386_session 2 0xffffd000
              (list_to_map [("sp", 0xffffd000); ("pc", 0x8048450)])
              [(Some 0x8048446, "   mov    eax,0x0")]
              ("0x8048446:   mov    eax,0x0" +:+ LF)
              eq_refl eq_refl eq_refl eq_refl ltac:(discriminate) eq_refl
              ltac:(discriminate) eq_refl)
    as [E _].
  rewrite E. reflexivity.
Defined.

Lemma ppc_inference_raises_witness :
  get_function_args plain_lib ppc_session None = Raise (NameError "p").
Proof.
  apply (ppc_inference_raises plain_lib ppc_session None
           (list_to_map [("r3", 1); ("r4", 2); ("pc", 0x10000450)])
           [(Some 0x1000044c, "   li      r3,1")]
           ("0x1000044c:   li      r3,1" +:+ LF));
    try reflexivity; discriminate.
Defined.

(** An image with BIND_NOW and without GNU_RELRO. *)
Lemma checksec_relro_witness :
  exists result : gmap string Z,
    checksec bind_now_lib ring_session None = Some result /\
    result !! "RELRO" = Some 0.
Proof.
  destruct (checksec_relro bind_now_lib ring_session None "/tmp/a.out"
              (execute_external_command bind_now_lib EmptyString)
              eq_refl ltac:(discriminate) eq_refl eq_refl)
    as (result & relro & Hrun & Hrelro & _ & _ & Hzero).
  exists result. split; [exact Hrun|].
  rewrite Hrelro. f_equal. apply Hzero; reflexivity.
Defined.

(** * Further properties *)

(** ** Reference chains: termination, distinct addresses, links *)

Section WalkerChains.

Context (L : Lib) (g : Gdb).

Lemma mark_truncated_inv (result chain : list triple) :
  mark_truncated result = Ok chain ->
  exists (before : list triple) (v t : option string) (vn : value),
    result = (before ++ [(v, t, vn)])%list /\
    chain = (before ++ [(v, t, VStr TRUNCATED)])%list.
Proof.
  destruct result as [|x result _] using rev_ind; [done|].
  unfold mark_truncated. rewrite rev_unit. destruct x as [[v t] vn].
  intros [= <-]. exists result, v, t, vn. split; [done|].
  simpl. by rewrite rev_involutive.
Qed.

Lemma mark_truncated_visited (result chain : list triple) :
  mark_truncated result = Ok chain -> visited L chain = visited L result.
Proof.
  intros (before & v & t & vn & -> & ->)%mark_truncated_inv.
  unfold visited. by rewrite !fmap_app.
Qed.

Lemma mark_truncated_linked (result chain : list triple) :
  mark_truncated result = Ok chain -> linked L result -> linked L chain.
Proof.
  intros (before & v & t & vn & -> & ->)%mark_truncated_inv Hl i e e' Hi HS.
  assert (S i < length (before ++ [(v, t, VStr TRUNCATED)]))%nat as Hlt
    by (by apply lookup_lt_Some in HS).
  rewrite length_app in Hlt. simpl in Hlt.
  rewrite lookup_app_l in Hi by lia.
  destruct (decide (S i = length before)) as [Heq|Hne].
  - rewrite lookup_app_r, Heq, Nat.sub_diag in HS by lia.
    injection HS as <-.
    apply (Hl i e (v, t, vn)).
    + rewrite lookup_app_l by lia. done.
    + rewrite lookup_app_r, Heq, Nat.sub_diag by lia. done.
  - rewrite lookup_app_l in HS by lia.
    apply (Hl i e e'); rewrite lookup_app_l by lia; done.
Qed.

(** The loop returns within [depth + 2] turns, with at most [depth + 1]
    entries. *)
Lemma loop_bounded (fuel : nat) (depth : Z) (result : list triple)
    (cur : triple) :
  (length result <= Z.to_nat depth + 1)%nat ->
  (Z.to_nat depth + 2 <= fuel + length result)%nat ->
  exists r : Res (list triple),
    examine_mem_reference_loop L g fuel depth result cur = Some r /\
    forall chain, r = Ok chain -> (length chain <= Z.to_nat depth + 1)%nat.
Proof.
  revert result cur. induction fuel as [|fuel IH]; intros result cur Hlen Hfuel.
  - lia.
  - destruct cur as [[v t] vn].
    destruct (decide (vn = VNone)) as [->|Hvn].
    { eexists. split; [reflexivity|]. by intros chain [= <-]. }
    rewrite loop_turn by done.
    destruct (Z.gtb_spec (Z.of_nat (length result)) depth) as [Hgt|Hle].
    { eexists. split; [reflexivity|]. intros chain Hm.
      apply mark_truncated_inv in Hm as (before & v' & t' & vn' & -> & ->).
      rewrite !length_app in *. simpl in *. lia. }
    cbv zeta.
    assert (length (result ++ [(v, t, vn)]) <= Z.to_nat depth + 1)%nat as Hlen'.
    { rewrite length_app. simpl. lia. }
    destruct (_ || _).
    { eexists. split; [reflexivity|]. by intros chain [= <-]. }
    destruct (to_int L vn) as [n|].
    2: { eexists. split; [reflexivity|]. by intros chain [= <-]. }
    destruct (bool_decide _).
    { eexists. split; [reflexivity|]. by intros chain [= <-]. }
    destruct (examine_mem_value L g (Some n)) as [next|e].
    2: { eexists. split; [reflexivity|]. done. }
    apply IH; [done|]. rewrite length_app. simpl. lia.
Qed.

(** X1: The walk always ends: for every starting value and every depth,
    [effective_depth depth + 2] turns of the loop are enough, whatever the
    memory holds, and a returned chain has at most
    [effective_depth depth + 1] entries. *)
Theorem reference_chain_terminates (fuel : nat) (value : option Z) (depth : Z) :
  (Z.to_nat (effective_depth depth) + 2 <= fuel)%nat ->
  exists r : Res (list triple),
    examine_mem_reference L g fuel value depth = Some r /\
    forall chain,
      r = Ok chain ->
      (length chain <= Z.to_nat (effective_depth depth) + 1)%nat.
Proof.
  intros Hfuel. unfold examine_mem_reference.
  change (if (depth <=? 0)%Z then 0xffffffff else depth)
    with (effective_depth depth).
  destruct (examine_mem_value L g value) as [first|e].
  - apply loop_bounded; simpl; lia.
  - eexists. split; [reflexivity|]. done.
Qed.

Hypothesis to_int_to_hex : forall n : Z, to_int L (VStr (to_hex L n)) = Some n.

Lemma linked_snoc (result : list triple) (cur : triple) (a : Z) :
  linked L result ->
  to_int L (of_str cur.1.1) = Some a ->
  (forall e, last result = Some e -> to_int L e.2 = Some a) ->
  linked L (result ++ [cur]).
Proof.
  intros Hl Hcur Hlast i e e' Hi HS.
  assert (S i < length (result ++ [cur]))%nat as Hlt
    by (by apply lookup_lt_Some in HS).
  rewrite length_app in Hlt. simpl in Hlt.
  rewrite lookup_app_l in Hi by lia.
  destruct (decide (S i = length result)) as [Heq|Hne].
  - rewrite lookup_app_r, Heq, Nat.sub_diag in HS by lia.
    injection HS as <-. exists a. split; [|done].
    apply Hlast. rewrite last_lookup, <- Heq. done.
  - rewrite lookup_app_l in HS by lia. by apply (Hl i).
Qed.

(** What the loop keeps true of the chain built so far and of the entry
    about to be appended. *)
Lemma loop_chain (fuel : nat) (depth : Z) (result : list triple)
    (cur : triple) (chain : list triple) :
  NoDup (visited L result) ->
  linked L result ->
  (cur.2 <> VNone ->
   exists a : Z,
     cur.1.1 = Some (to_hex L a) /\
     (Some a ∉ visited L result) /\
     forall e, last result = Some e -> to_int L e.2 = Some a) ->
  examine_mem_reference_loop L g fuel depth result cur = Some (Ok chain) ->
  NoDup (visited L chain) /\ linked L chain.
Proof.
  revert result cur.
  induction fuel as [|fuel IH]; intros result [[v t] vn] Hnd Hl Hcur.
  - destruct vn; simpl; [|done..]. by intros [= <-].
  - destruct (decide (vn = VNone)) as [->|Hvn].
    { simpl. by intros [= <-]. }
    rewrite loop_turn by done.
    destruct (Hcur Hvn) as (a & Hv & Hnew & Hlast). simpl in Hv. subst v.
    destruct (Z.gtb_spec (Z.of_nat (length result)) depth) as [Hgt|Hle].
    { intros [= Hm]. split.
      - by rewrite (mark_truncated_visited _ _ Hm).
      - by apply (mark_truncated_linked _ _ Hm). }
    cbv zeta.
    assert (visited L (result ++ [(Some (to_hex L a), t, vn)])
            = (visited L result ++ [Some a])%list) as Hvis.
    { unfold visited. rewrite fmap_app. simpl. by rewrite to_int_to_hex. }
    assert (NoDup (visited L (result ++ [(Some (to_hex L a), t, vn)]))) as Hnd'.
    { rewrite Hvis. apply NoDup_app. split; [done|]. split.
      - intros x Hx ->%list_elem_of_singleton. done.
      - apply NoDup_singleton. }
    assert (linked L (result ++ [(Some (to_hex L a), t, vn)])) as Hl'.
    { apply (linked_snoc _ _ a); [done| |done]. simpl. apply to_int_to_hex. }
    destruct (_ || _); [by intros [= <-]|].
    destruct (to_int L vn) as [n|] eqn:Hn; [|by intros [= <-]].
    destruct (bool_decide_reflect
                (Some n ∈ visited L (result ++ [(Some (to_hex L a), t, vn)])))
      as [|Hfresh]; [by intros [= <-]|].
    destruct (examine_mem_value L g (Some n)) as [[[v' t'] vn']|e] eqn:Hnext;
      [|done].
    apply IH; [done..|].
    simpl. intros Hvn'. exists n. split; [|split].
    + by apply (examine_mem_value_text L g n v' t' vn').
    + done.
    + intros e. rewrite last_snoc. by intros [= <-].
Qed.

Lemma chain_invariants (fuel : nat) (value : option Z) (depth : Z)
    (chain : list triple) :
  examine_mem_reference L g fuel value depth = Some (Ok chain) ->
  NoDup (visited L chain) /\ linked L chain.
Proof.
  unfold examine_mem_reference.
  destruct (examine_mem_value L g value) as [[[v t] vn]|e] eqn:Hfirst; [|done].
  apply loop_chain.
  - constructor.
  - by intros i e e' Hi.
  - simpl. intros Hvn. destruct value as [a|].
    + exists a. split; [|split].
      * by apply (examine_mem_value_text L g a v t vn).
      * apply not_elem_of_nil.
      * done.
    + simpl in Hfirst. by injection Hfirst as <- <- <-.
Qed.

(** X2: No address occurs twice in a chain: the integers that the addresses
    of its entries stand for are pairwise distinct, provided [to_int]
    reads back what [to_hex] prints. *)
Theorem reference_chain_distinct (fuel : nat) (value : option Z) (depth : Z)
    (chain : list triple) :
  examine_mem_reference L g fuel value depth = Some (Ok chain) ->
  NoDup (visited L chain).
Proof. intros H. by apply chain_invariants in H as [? _]. Qed.

(** X3: A chain follows the pointers: the payload of each entry, read as an
    integer, is the address of the next entry (the last entry may carry
    the truncation mark instead of a payload). *)
Theorem reference_chain_linked (fuel : nat) (value : option Z) (depth : Z)
    (chain : list triple) :
  examine_mem_reference L g fuel value depth = Some (Ok chain) ->
  linked L chain.
Proof. intros H. by apply chain_invariants in H as [_ ?]. Qed.

End WalkerChains.

Lemma reference_chain_terminates_witness :
  exists r : Res (list triple),
    examine_mem_reference plain_lib ring_session 4 (Some 0x601000) 2 = Some r /\
    forall chain, r = Ok chain -> (length chain <= 3)%nat.
Proof.
  apply (reference_chain_terminates plain_lib ring_session 4 (Some 0x601000) 2).
  vm_compute. lia.
Defined.

Lemma reference_chain_distinct_witness :
  NoDup (visited plain_lib
           [(Some "0x601000", Some "data", VInt 0x601010);
            (Some "0x601010", Some "data", VInt 0x601020);
            (Some "0x601020", Some "data", VInt 0x601000)]).
Proof.
  apply (reference_chain_distinct plain_lib ring_session) with
    (fuel := 10%nat) (value := Some 0x601000) (depth := 5).
  - intros n. simpl. unfold hex_to_int.
    by rewrite HexString.to_Z_of_Z, String.eqb_refl.
  - reflexivity.
Defined.

Lemma reference_chain_linked_witness :
  linked plain_lib
    [(Some "0x601000", Some "data", VInt 0x601010);
     (Some "0x601010", Some "data", VInt 0x601020);
     (Some "0x601020", Some "data", VInt 0x601000)].
Proof.
  apply (reference_chain_linked plain_lib ring_session) with
    (fuel := 10%nat) (value := Some 0x601000) (depth := 5).
  - intros n. simpl. unfold hex_to_int.
    by rewrite HexString.to_Z_of_Z, String.eqb_refl.
  - reflexivity.
Defined.

(** ** Address ranges and value classification *)

Section Ranges.

Context (L : Lib) (g : Gdb).

(** Masking with [0xfffffffffffff000] rounds a 64-bit address down to
    its page. *)
Lemma page_floor (a : Z) :
  0 <= a < 2 ^ 64 -> Z.land a 0xfffffffffffff000 = a - a `mod` 4096.
Proof.
  intros Ha.
  assert (Z.land a 0xfffffffffffff000 = Z.ldiff a (Z.ones 12)) as ->.
  { apply Z.bits_inj'. intros i Hi.
    change 0xfffffffffffff000 with (Z.ldiff (Z.ones 64) (Z.ones 12)).
    rewrite Z.land_spec, !Z.ldiff_spec, !Z.testbit_ones by lia.
    destruct (Z.ltb_spec i 64) as [Hlt|Hge].
    - destruct (Z.leb_spec 0 i); [|lia]. simpl.
      by destruct (Z.testbit a i), (i <? 12)%Z.
    - rewrite <- (Z.mod_small a (2 ^ 64)) by lia.
      rewrite Z.mod_pow2_bits_high by lia. reflexivity. }
  rewrite Z.ldiff_ones_r by lia.
  rewrite Z.shiftr_div_pow2, Z.shiftl_mul_pow2 by lia.
  change (2 ^ 12) with 4096.
  pose proof (Z.div_mod a 4096). lia.
Qed.

Lemma find_range (a : Z) (maps : list vmrange) (r : vmrange) :
  find (fun '(start, end_, perm, mapname) =>
          (start <=? a)%Z && (end_ >? a)%Z) maps = Some r ->
  r ∈ maps /\ r.1.1.1 <= a < r.1.1.2.
Proof.
  induction maps as [|[[[start end_] perm] mapname] maps IH]; simpl; [done|].
  destruct (Z.leb_spec start a), (Z.gtb_spec end_ a); simpl.
  1: { intros [= <-]. split; [apply elem_of_cons; by left|simpl; lia]. }
  all: intros [Hin ?]%IH; split; [apply elem_of_cons; by right|done].
Qed.

(** X4: The range [get_vmrange] finds for a 64-bit address contains the
    address.  It is a line of the memory map when a non-empty map is at
    hand (the one passed in, or else the whole map of the process);
    otherwise it is the page of the address, reported as ["rwx"] and
    ["unknown"], and only when one byte can be read there. *)
Theorem get_vmrange_contains (a : Z) (maps : option (list vmrange))
    (r : vmrange) :
  0 <= a < 2 ^ 64 ->
  get_vmrange g (Some a) maps = Some r ->
  r.1.1.1 <= a < r.1.1.2 /\
  match match maps with None => get_vmmap g None | Some m => Some m end with
  | Some (m :: ms) => r ∈ m :: ms
  | _ =>
      r = (a - a `mod` 4096, a - a `mod` 4096 + 4096, "rwx", "unknown") /\
      read_memory g a 1 <> None
  end.
Proof.
  intros Ha. unfold get_vmrange.
  destruct (match maps with None => get_vmmap g None | Some m => Some m end)
    as [[|m ms]|].
  - destruct (read_memory g a 1); [|done]. intros [= <-].
    rewrite page_floor by done. simpl.
    pose proof (Z.mod_pos_bound a 4096). split; [lia|done].
  - intros [? ?]%find_range. done.
  - destruct (read_memory g a 1); [|done]. intros [= <-].
    rewrite page_floor by done. simpl.
    pose proof (Z.mod_pos_bound a 4096). split; [lia|done].
Qed.

(** X5: The classifier's table.  A value that is not an address is an
    immediate with an empty payload; a writable address is heap or data,
    also when it is executable, and heap only inside the first heap
    mapping; an address that is not writable is code or rodata, and
    when it is not executable either it is rodata with a payload.  The
    only result without a kind is the one for writable memory that
    cannot be read. *)
Theorem classification_table (a : Z) (v t : option string) (vn : value) :
  examine_mem_value L g (Some a) = Ok (v, t, vn) ->
  match t with
  | None => v = None /\ vn = VNone /\ is_writable g (Some a) None = true
  | Some kind =>
      v = Some (to_hex L a) /\
      if negb (is_address g (Some a) None)
      then kind = "value" /\ vn = VStr EmptyString
      else if is_writable g (Some a) None
      then kind = "data" \/
           kind = "heap" /\
           exists hs he perm name rest,
             get_vmmap g (Some "heap") = Some ((hs, he, perm, name) :: rest)
             /\ hs <= a < he
      else if is_executable g (Some a) None
      then kind = "code" \/ kind = "rodata"
      else kind = "rodata" /\ vn <> VNone
  end.
Proof.
  unfold examine_mem_value.
  destruct (is_address g (Some a) None); simpl.
  2: { intros [= <- <- <-]. done. }
  destruct (is_writable g (Some a) None).
  { destruct (examine_data L g a) as [out|]; [|done]. cbn.
    destruct out; [by intros [= <- <- <-]|..].
    all: destruct (get_vmmap g (Some "heap"))
      as [[|[[[hs he] perm] name] rest]|];
      try (intros [= <- <- <-]; split; [done|by left]).
    all: destruct (Z.geb_spec a hs), (Z.ltb_spec a he); simpl;
      intros [= <- <- <-]; (split; [done|]); try (by left).
    all: right; split; [done|]; exists hs, he, perm, name, rest;
      split; [done|lia]. }
  destruct (is_executable g (Some a) None).
  { intros H.
    repeat match type of H with
           | context [Py.bind ?m _] => destruct m; cbn in H
           | context [if ?b then _ else _] => destruct b
           | context [match ?x with _ => _ end] => destruct x
           end;
      try discriminate; injection H as <- <- <-; auto. }
  destruct (examine_data L g a) as [out|]; [|done]. cbn.
  destruct out; intros [= <- <- <-]; done.
Qed.

End Ranges.

Lemma get_vmrange_contains_witness :
  (0x601000 <= 0x601000 < 0x602000) /\
  (0x601000, 0x602000, "rwx", "unknown")
  = (0x601000 - 0x601000 `mod` 4096, 0x601000 - 0x601000 `mod` 4096 + 4096,
     "rwx", "unknown") /\
  read_memory mapless_session 0x601000 1 <> None.
Proof.
  apply (get_vmrange_contains mapless_session 0x601000 None
           (0x601000, 0x602000, "rwx", "unknown")).
  - lia.
  - reflexivity.
Defined.

Lemma classification_table_witness :
  Some "0x601000" = Some (to_hex plain_lib 0x601000) /\
  ("data" = "data" \/
   "data" = "heap" /\
   exists hs he perm name rest,
     get_vmmap ring_session (Some "heap") = Some ((hs, he, perm, name) :: rest)
     /\ hs <= 0x601000 < he).
Proof.
  exact (classification_table plain_lib ring_session 0x601000
           (Some "0x601000") (Some "data") (VInt 0x601010) eq_refl).
Defined.

(** ** Control flow: opposite conditions, unknown opcodes, operands *)

Section Jumps.

Context (L : Lib) (g : Gdb).

Ltac flag_split :=
  repeat match goal with
         | |- context [truthy ?x] =>
             let b := fresh "b" in generalize (truthy x); intro b
         end;
  vm_compute;
  repeat match goal with
         | |- context [match ?b with _ => _ end] => is_var b; destruct b
         end;
  first [by exists true | by exists false].

(** X6: On x86 a conditional jump and its opposite are never both taken and
    never both left: with the flags readable and both targets decoded,
    exactly one of the two is reported taken, with its target. *)
Theorem x86_opposite_jumps (op op' inst inst' : string) (e : Z)
    (t t' : option Z) :
  (op, op') ∈ x86_opposites ->
  getreg g "eflags" = Some e ->
  e <> 0 ->
  eval_target L g op inst = Ok t ->
  eval_target L g op' inst' = Ok t' ->
  one_taken (testjump L g op inst) (testjump L g op' inst') t t'.
Proof.
  intros Hin He Hne Ht Ht'. unfold one_taken, testjump, get_eflags.
  rewrite He. destruct (Z.eqb_spec e 0) as [|_]; [done|].
  rewrite eflags_dict_nonempty.
  unfold x86_opposites in Hin.
  repeat (apply elem_of_cons in Hin as [[= -> ->]|Hin]);
    try (by apply elem_of_nil in Hin);
    rewrite Ht, Ht'; unfold eflags_dict;
    flag_split.
Qed.

(** X7: The same on AArch64 and on 32-bit ARM for the conditions on one flag
    and for signed greater-or-equal against less-than. *)
Theorem arm_opposite_branches (op op' inst inst' : string) (c : Z)
    (t t' : option Z) :
  getreg g "cpsr" = Some c ->
  eval_target L g op inst = Ok t ->
  eval_target L g op' inst' = Ok t' ->
  ((op, op') ∈ aarch64_opposites ->
   one_taken (aarch64_testjump L g op inst) (aarch64_testjump L g op' inst')
     t t') /\
  ((op, op') ∈ arm_opposites ->
   one_taken (arm_testjump L g op inst) (arm_testjump L g op' inst') t t').
Proof.
  intros Hc Ht Ht'. split; intros Hin.
  - unfold one_taken, aarch64_testjump, get_aarch64_cpsr. rewrite Hc. cbn [fmap option_fmap option_map].
    rewrite aarch64_cpsr_dict_nonempty.
    unfold aarch64_opposites in Hin.
    repeat (apply elem_of_cons in Hin as [[= -> ->]|Hin]);
      try (by apply elem_of_nil in Hin);
      rewrite Ht, Ht'; unfold aarch64_cpsr_dict;
      flag_split.
  - unfold one_taken, arm_testjump, get_cpsr. rewrite Hc. cbn [fmap option_fmap option_map].
    rewrite cpsr_dict_nonempty.
    unfold arm_opposites in Hin.
    repeat (apply elem_of_cons in Hin as [[= -> ->]|Hin]);
      try (by apply elem_of_nil in Hin);
      rewrite Ht, Ht'; unfold cpsr_dict;
      flag_split.
Qed.

(** X8: An opcode the x86 table does not list is never reported taken, even
    when the flags would take the jump: [js], [jns], [jp], [jecxz] and
    the like get [(False, None)]. *)
Theorem unlisted_opcode_not_taken (op inst : string) (e : Z) (t : option Z) :
  op ∉ x86_conditions ->
  getreg g "eflags" = Some e ->
  e <> 0 ->
  eval_target L g op inst = Ok t ->
  testjump L g op inst = Ok (false, None).
Proof.
  intros Hop He Hne Ht.
  assert (forall s, s ∈ x86_conditions -> String.eqb op s = false) as Hs.
  { intros s Hin. apply String.eqb_neq. by intros ->. }
  unfold testjump, get_eflags.
  rewrite He. destruct (Z.eqb_spec e 0) as [|_]; [done|].
  rewrite eflags_dict_nonempty, Ht. cbn [Py.bind].
  repeat match goal with
         | |- context [String.eqb op ?s] =>
             rewrite (Hs s)
               by (unfold x86_conditions;
                   repeat first [apply list_elem_of_here
                                |apply list_elem_of_further])
         end.
  reflexivity.
Qed.

(** X9: [jmp] and [ret] are taken whenever the flags can be read, with the
    decoded target (0 when there is none).  When the flags register
    cannot be read or reads 0, nothing is reported taken, not even these
    two, and the operand is not looked at. *)
Theorem unconditional_jumps (op inst : string) :
  op = "jmp" \/ op = "ret" ->
  testjump L g op inst
  = match getreg g "eflags" with
    | Some e =>
        if (e =? 0)%Z then Ok (false, None)
        else let* t := eval_target L g op inst in
             Ok (true, Some (default 0 t))
    | None => Ok (false, None)
    end.
Proof.
  intros Hop. unfold testjump, get_eflags.
  destruct (getreg g "eflags") as [e|]; [|done].
  destruct (e =? 0)%Z; [done|].
  rewrite eflags_dict_nonempty.
  destruct (eval_target L g op inst) as [t|]; [|done].
  by destruct Hop as [-> | ->].
Qed.


(** [read_int] yields a value for the sizes 4 and 8 only (a size of 0
    stands for the word size of the target). *)
Lemma read_int_other_size (address : option Z) (n : Z) (r : option Z) :
  n <> 0 -> n <> 4 -> n <> 8 ->
  read_int L g address (Some n) = Ok r ->
  r = None.
Proof.
  intros H0 H4 H8. unfold read_int, read_mem, unpack.
  destruct (Z.eqb_spec n 0); [done|].
  destruct address as [a|]; [|done]. cbn.
  destruct (read_memory g a n) as [[|b bs]|]; try (by intros [= <-]).
  destruct (Z.eqb_spec n 8); [done|]. destruct (Z.eqb_spec n 4); [done|].
  by intros [= <-].
Qed.

(** X11: A jump through a 16-bit memory operand never gets a target: the
    operand is read with size 2, which [unpack] does not handle. *)
Theorem word_operand_unresolved (opcode inst : string)
    (m : list (option string)) (a : Z) :
  contains "ret" opcode = false ->
  re_search L PTR_OPERAND inst = Some m ->
  group m 1 = Ok (Some "WORD") ->
  eval_target L g opcode inst <> Ok (Some a).
Proof.
  intros Hret Hm Hg. unfold eval_target. rewrite Hret, Hm, Hg. cbn [Py.bind].
  destruct (Py.bind (group m 2) str_of) as [g2|]; [|done]. cbn [Py.bind].
  match goal with
  | |- Py.bind ?d _ <> _ => destruct d as [dest|]; [|done]
  end.
  cbn [Py.bind].
  rewrite !bool_decide_eq_false_2 by done.
  rewrite bool_decide_eq_true_2 by done.
  intros H. by apply read_int_other_size in H.
Qed.

End Jumps.

Lemma x86_opposite_jumps_witness :
  one_taken
    (testjump x86_lib (x86_session 0x246 []) "je" je_text)
    (testjump x86_lib (x86_session 0x246 []) "jne" "jne    0x401000")
    (Some 0x7ffff7e39570) (Some 0x401000).
Proof.
  apply (x86_opposite_jumps x86_lib (x86_session 0x246 []) "je" "jne" je_text
           "jne    0x401000" 0x246).
  - apply list_elem_of_here.
  - reflexivity.
  - discriminate.
  - reflexivity.
  - reflexivity.
Defined.

Lemma arm_opposite_branches_witness :
  one_taken
    (aarch64_testjump plain_lib (aarch64_session 0x60000000) "b.ge" "b.ge 24")
    (aarch64_testjump plain_lib (aarch64_session 0x60000000) "b.lt" "b.lt 24")
    None None /\
  one_taken
    (arm_testjump plain_lib (aarch64_session 0x60000000) "bge" "bge 24")
    (arm_testjump plain_lib (aarch64_session 0x60000000) "blt" "blt 24")
    None None.
Proof.
  split.
  - apply (arm_opposite_branches plain_lib (aarch64_session 0x60000000)
             "b.ge" "b.lt" "b.ge 24" "b.lt 24" 0x60000000 None None
             eq_refl eq_refl eq_refl).
    do 3 apply list_elem_of_further. apply list_elem_of_here.
  - apply (arm_opposite_branches plain_lib (aarch64_session 0x60000000)
             "bge" "blt" "bge 24" "blt 24" 0x60000000 None None
             eq_refl eq_refl eq_refl).
    do 3 apply list_elem_of_further. apply list_elem_of_here.
Defined.

Lemma unlisted_opcode_not_taken_witness :
  testjump plain_lib (x86_session 0x286 []) "js" "js     0x401000"
  = Ok (false, None).
Proof.
  apply (unlisted_opcode_not_taken plain_lib (x86_session 0x286 []) "js"
           "js     0x401000" 0x286 None).
  - vm_compute. intros H.
    repeat (apply elem_of_cons in H as [H|H]; [discriminate H|]).
    by apply elem_of_nil in H.
  - reflexivity.
  - discriminate.
  - reflexivity.
Defined.

Lemma unconditional_jumps_witness :
  testjump plain_lib (x86_session 0 []) "jmp" "jmp    0x401000"
  = Ok (false, None).
Proof.
  exact (unconditional_jumps plain_lib (x86_session 0 []) "jmp"
           "jmp    0x401000" (or_introl eq_refl)).
Defined.

Lemma word_operand_unresolved_witness :
  eval_target word_lib (x86_session 0x246 [(0xdead0000, 0x401000)]) "jmp"
    word_jump_text
  <> Ok (Some 0x401000).
Proof.
  exact (word_operand_unresolved word_lib
           (x86_session 0x246 [(0xdead0000, 0x401000)]) "jmp" word_jump_text
           [Some "WORD"; Some "[rax]"; Some "rax"; None] 0x401000
           eq_refl eq_refl eq_refl).
Defined.

(** ** Argument inference: how many values, and which *)

Section ArgumentCounts.

Context (L : Lib) (g : Gdb).

Lemma count_NoDup (l : list string) (x : string) :
  NoDup l ->
  length (filter (fun y => y = x) l)
  = if bool_decide (x ∈ l) then 1%nat else 0%nat.
Proof.
  induction 1 as [|y l Hy Hnd IH]; [done|].
  rewrite filter_cons. destruct (decide (y = x)) as [->|Hne].
  - simpl. rewrite IH.
    rewrite (bool_decide_eq_false_2 (x ∈ l)) by done.
    by rewrite bool_decide_eq_true_2 by (apply elem_of_cons; by left).
  - rewrite IH. destruct (bool_decide_reflect (x ∈ l)) as [Hin|Hout].
    + by rewrite bool_decide_eq_true_2 by (apply elem_of_cons; by right).
    + rewrite bool_decide_eq_false_2; [done|].
      by intros [->|?]%elem_of_cons.
Qed.

Lemma lmem_remove_dups (m : list string) (x : string) :
  lmem x (remove_dups m) = lmem x m.
Proof. unfold lmem. apply bool_decide_ext, elem_of_remove_dups. Qed.

(** After [list(set(m))] every name counts once. *)
Lemma lcount_remove_dups (m : list string) (x : string) :
  lcount (remove_dups m) x = if lmem x m then 1 else 0.
Proof.
  unfold lcount. rewrite count_NoDup by apply NoDup_remove_dups.
  fold (lmem x (remove_dups m)). rewrite lmem_remove_dups.
  by destruct (lmem x m).
Qed.

Lemma traverse_lookup {A B} (f : A -> Res B) (l : list A) (ys : list B)
    (i : nat) (y : B) :
  traverse f l = Ok ys ->
  ys !! i = Some y ->
  exists x : A, l !! i = Some x /\ f x = Ok y.
Proof.
  revert ys i. induction l as [|a l IH]; simpl; intros ys i.
  - by intros [= <-].
  - destruct (f a) as [b|] eqn:Hf; [|done]. cbn.
    destruct (traverse f l) as [ys'|] eqn:Ht; [|done]. cbn.
    intros [= <-]. destruct i as [|i]; simpl.
    + intros [= <-]. eauto.
    + intros Hi. by apply (IH ys').
Qed.

(** What the final loop of a register convention returns: the values of
    the first [argc] registers of the order. *)
Lemma read_args_spec (arg_order : list string) (argc : Z)
    (args : list (option Z)) :
  read_args g arg_order argc = Ok args ->
  length args = Z.to_nat argc /\
  forall (i : nat) (v : option Z),
    args !! i = Some v ->
    exists (name : string) (regs : gmap string Z) (rv : Z),
      arg_order !! i = Some name /\ getregs g = Some regs /\
      regs !! name = Some rv /\ v = Some rv.
Proof.
  unfold read_args. intros H. split.
  - apply traverse_length in H. by rewrite length_seq in H.
  - intros i v Hi.
    destruct (traverse_lookup _ _ _ _ _ H Hi) as (x & Hx & Hf).
    apply lookup_seq in Hx as [-> _]. simpl in Hf.
    unfold index in Hf. destruct (arg_order !! i) as [name|]; [|done].
    cbn in Hf. destruct (getregs g) as [regs|]; [|done]. cbn in Hf.
    unfold getitem in Hf. destruct (regs !! name) as [rv|] eqn:Hrv; [|done].
    cbn in Hf. injection Hf as <-. by exists name, regs, rv.
Qed.

(** X12: On x86-64 the number of arguments is the length of the leading run
    of argument registers that the instructions before the call mention,
    in the order rdi, rsi, rdx, rcx, r8, r9, where rdi counts as mentioned
    as soon as rsi is; the forced count plays no part.  The values are
    those of the registers, in that order. *)
Theorem x86_64_argument_count (code : string) (argc : option Z)
    (args : list (option Z)) :
  _get_function_args_64 L g code argc = Ok args ->
  exists regs : list string,
    traverse second (re_findall L ":\s*([^ ]*)\s*(.*)," code) = Ok regs /\
    let m := concat (re_findall L "di|si|dx|cx|r8|r9" (join " " regs)) in
    length args
    = leading [lmem "di" m || lmem "si" m; lmem "si" m; lmem "dx" m;
               lmem "cx" m; lmem "r8" m; lmem "r9" m] /\
    forall (i : nat) (v : option Z),
      args !! i = Some v ->
      exists (name : string) (rs : gmap string Z) (rv : Z),
        ["rdi"; "rsi"; "rdx"; "rcx"; "r8"; "r9"] !! i = Some name /\
        getregs g = Some rs /\ rs !! name = Some rv /\ v = Some rv.
Proof.
  unfold _get_function_args_64.
  destruct (traverse second _) as [regs|]; [|done]. cbn [Py.bind].
  intros H. exists regs. split; [done|]. cbv zeta in *.
  rewrite !lcount_remove_dups, !lmem_remove_dups in H.
  pose proof (read_args_spec ["rdi"; "rsi"; "rdx"; "rcx"; "r8"; "r9"])
    as Hspec.
  revert H Hspec.
  generalize (read_args g ["rdi"; "rsi"; "rdx"; "rcx"; "r8"; "r9"]).
  generalize (concat (re_findall L "di|si|dx|cx|r8|r9" (join " " regs))).
  intros m ra H Hspec.
  destruct (lmem "di" m), (lmem "si" m), (lmem "dx" m), (lmem "cx" m),
    (lmem "r8" m), (lmem "r9" m); simpl in H |- *;
    first [ injection H as <-; split; [reflexivity|]; intros i v Hi;
            by rewrite lookup_nil in Hi
          | apply Hspec in H as [Hlen Hval]; split; [exact Hlen|exact Hval] ].
Qed.

Lemma read_args_at_most (arg_order : list string) (argc : Z)
    (args : list (option Z)) :
  argc <= 6 ->
  (if (argc =? 0)%Z then Ok [] else read_args g arg_order argc) = Ok args ->
  (length args <= 6)%nat.
Proof.
  intros Hle. destruct (argc =? 0)%Z.
  - intros [= <-]. simpl. lia.
  - intros [Hlen _]%read_args_spec. lia.
Qed.

(** The count of a register convention: one more for the first register
    when only the second is mentioned, then one per register as long as
    the one before counted. *)
Lemma register_count_at_most (b0 : bool) (c0 c1 c2 c3 c4 c5 : Z) :
  (b0 = true -> c0 = 0) ->
  0 <= c0 <= 1 -> 0 <= c1 <= 1 -> 0 <= c2 <= 1 -> 0 <= c3 <= 1 ->
  0 <= c4 <= 1 -> 0 <= c5 <= 1 ->
  (let argc := 0 in
   let argc := if b0 then argc + 1 else argc in
   let argc := argc + c0 in
   let argc := if (argc >? 0)%Z then argc + c1 else argc in
   let argc := if (argc >? 1)%Z then argc + c2 else argc in
   let argc := if (argc >? 2)%Z then argc + c3 else argc in
   let argc := if (argc >? 3)%Z then argc + c4 else argc in
   let argc := if (argc >? 4)%Z then argc + c5 else argc in
   argc) <= 6.
Proof.
  intros Hb H0 H1 H2 H3 H4 H5. cbv zeta.
  assert ((if b0 then 0 + 1 else 0) + c0 <= 1) as Ha.
  { destruct b0; [rewrite Hb by done|]; lia. }
  revert Ha. generalize ((if b0 then 0 + 1 else 0) + c0). intros a0 Ha.
  repeat match goal with
         | |- context [(?a >? ?b)%Z] => destruct (Z.gtb_spec a b)
         end; lia.
Qed.

Lemma lcount_bounds (m : list string) (x : string) :
  0 <= lcount (remove_dups m) x <= 1.
Proof. rewrite lcount_remove_dups. destruct (lmem x m); lia. Qed.

Lemma first_missing (m : list string) (x y : string) :
  lmem y (remove_dups m) && negb (lmem x (remove_dups m)) = true ->
  lcount (remove_dups m) x = 0.
Proof.
  rewrite lcount_remove_dups, !lmem_remove_dups.
  by destruct (lmem y m), (lmem x m).
Qed.

(** X13: [get_function_args] never returns more than six values, on any
    architecture, with or without a forced count. *)
Theorem argument_list_at_most_six (argc : option Z) (args : list (option Z)) :
  get_function_args L g argc = Ok args ->
  (length args <= 6)%nat.
Proof.
  unfold get_function_args.
  destruct (getregs g) as [regs|]; [|by intros [= <-]; simpl; lia].
  destruct (prev_inst g (getreg g "pc") 12) as [[[|i insts]|]|]; cbn [Py.bind];
    try (by intros [= <-]; simpl; lia); try done.
  match goal with
  | |- Py.bind ?c _ = _ -> _ => destruct c as [code|]; [|done]
  end.
  cbn [Py.bind].
  destruct (contains "aarch64" (getarch g).1).
  { unfold _get_function_args_aarch64.
    destruct (traverse second _) as [rs|]; [|done]. cbn [Py.bind]. cbv zeta.
    apply read_args_at_most.
    apply register_count_at_most;
      first [ apply first_missing | apply lcount_bounds
            | destruct (_ =? _)%Z; apply lcount_bounds ]. }
  destruct (contains "i386" (getarch g).1).
  { unfold _get_function_args_32. cbv zeta.
    match goal with
    | |- context [Z.min ?x 6] => generalize x
    end.
    intros n. destruct (Z.min n 6 =? 0)%Z.
    - intros [= <-]. simpl. lia.
    - intros Hlen%traverse_length. rewrite length_seq in Hlen. lia. }
  destruct (contains "64" (getarch g).1).
  { unfold _get_function_args_64.
    destruct (traverse second _) as [rs|]; [|done]. cbn [Py.bind]. cbv zeta.
    apply read_args_at_most.
    apply register_count_at_most;
      first [ apply first_missing | apply lcount_bounds ]. }
  destruct (contains "arm" (getarch g).1).
  { unfold _get_function_args_arm.
    destruct (traverse second _) as [rs|]; [|done]. cbn [Py.bind]. cbv zeta.
    apply read_args_at_most.
    apply register_count_at_most;
      first [ apply first_missing | apply lcount_bounds ]. }
  destruct (contains "powerpc" (getarch g).1).
  { unfold _get_function_args_ppc. cbv zeta.
    assert (global_findall "p" code = Raise (NameError "p")) as ->
      by (vm_compute; reflexivity).
    done. }
  intros [= <-]. simpl. lia.
Qed.

End ArgumentCounts.

(** Only rsi is written before the call: two values are returned. *)
Lemma x86_64_argument_count_witness :
  exists regs : list string,
    traverse second
      (re_findall rsi_lib ":\s*([^ ]*)\s*(.*)," rsi_code) = Ok regs /\
    let m := concat (re_findall rsi_lib "di|si|dx|cx|r8|r9" (join " " regs)) in
    length [Some 0x11; Some 0x22]
    = leading [lmem "di" m || lmem "si" m; lmem "si" m; lmem "dx" m;
               lmem "cx" m; lmem "r8" m; lmem "r9" m] /\
    forall (i : nat) (v : option Z),
      [Some 0x11; Some 0x22] !! i = Some v ->
      exists (name : string) (rs : gmap string Z) (rv : Z),
        ["rdi"; "rsi"; "rdx"; "rcx"; "r8"; "r9"] !! i = Some name /\
        getregs x86_64_call_session = Some rs /\ rs !! name = Some rv /\
        v = Some rv.
Proof.
  apply (x86_64_argument_count rsi_lib x86_64_call_session rsi_code None
           [Some 0x11; Some 0x22]).
  vm_compute. reflexivity.
Defined.

Lemma argument_list_at_most_six_witness :
  (length [Some 1; Some 2; Some 3; Some 4; Some 5; Some 6] <= 6)%nat.
Proof.
  apply (argument_list_at_most_six plain_lib i386_session (Some 7)
           [Some 1; Some 2; Some 3; Some 4; Some 5; Some 6]).
  vm_compute. reflexivity.
Defined.

(** ** Hardening flags other than RELRO *)

Section ChecksecFlags.

Context (L : Lib) (g : Gdb).

Ltac lookups :=
  repeat first [ rewrite lookup_insert_eq
               | rewrite lookup_insert_ne by done
               | rewrite lookup_alter_ne by done ].

Ltac line_cases line :=
  unfold checksec_line; cbv zeta;
  destruct (contains "GNU_RELRO" line), (contains "BIND_NOW" line),
    (contains "__stack_chk_fail" line),
    (contains "GNU_STACK" line && contains "RWE" line),
    (contains "Type:" line && contains "DYN (" line),
    (contains "_chk@" line), (contains "(DEBUG)" line);
  cbn [andb];
  repeat match goal with
         | |- context [bool_decide ?P] => destruct (bool_decide_reflect P)
         end;
  lookups.

Lemma checksec_line_nx (result : gmap string Z) (line : string) :
  checksec_line result line !! "NX"
  = if contains "GNU_STACK" line && contains "RWE" line
    then Some 0 else result !! "NX".
Proof. line_cases line; reflexivity. Qed.

Lemma checksec_line_canary (result : gmap string Z) (line : string) :
  checksec_line result line !! "CANARY"
  = if contains "__stack_chk_fail" line then Some 1 else result !! "CANARY".
Proof. line_cases line; reflexivity. Qed.

Lemma checksec_line_fortify (result : gmap string Z) (line : string) :
  checksec_line result line !! "FORTIFY"
  = if contains "_chk@" line then Some 1 else result !! "FORTIFY".
Proof. line_cases line; reflexivity. Qed.

Lemma checksec_line_pie (result : gmap string Z) (line : string) (p : Z) :
  result !! "PIE" = Some p ->
  p = 0 \/ p = 1 \/ p = 4 ->
  exists p' : Z,
    checksec_line result line !! "PIE" = Some p' /\
    (p' = 0 \/ p' = 1 \/ p' = 4) /\
    (p' = 0 <->
     p = 0 /\ contains "Type:" line && contains "DYN (" line = false).
Proof.
  intros Hp Hrange.
  assert (forall q : Z, q = 0 \/ q = 1 \/ q = 4 -> q <> 1 -> q <> 4 -> q = 0)
    as Hzero by lia.
  line_cases line;
    repeat match goal with
           | H : context [<[_ := _]> _ !! _] |- _ =>
               first [ rewrite lookup_insert_eq in H
                     | rewrite lookup_insert_ne in H by done
                     | rewrite lookup_alter_ne in H by done ]
           | H : context [alter _ _ _ !! _] |- _ =>
               rewrite lookup_alter_ne in H by done
           end;
    try rewrite Hp in *;
    first [ exists 1; split; [reflexivity|]; split; [auto|];
            split; [intros [=]|intros [-> ?]; congruence]
          | exists 4; split; [reflexivity|]; split; [auto|];
            split; [intros [=]|intros [? [=]]]
          | exists p; split; [reflexivity|]; split; [exact Hrange|];
            split; [intros ->; done|by intros [? _]] ].
Qed.

Lemma checksec_lines_flag (key : string) (c : string -> bool) (v : Z) :
  (forall result line,
     checksec_line result line !! key
     = if c line then Some v else result !! key) ->
  forall (lines : list string) (result : gmap string Z),
    fold_left checksec_line lines result !! key
    = if existsb c lines then Some v else result !! key.
Proof.
  intros Hline lines. induction lines as [|line lines IH]; intros result;
    simpl; [done|].
  rewrite IH, Hline. by destruct (c line), (existsb c lines).
Qed.

Lemma checksec_lines_pie (lines : list string) (result : gmap string Z)
    (p : Z) :
  result !! "PIE" = Some p ->
  p = 0 \/ p = 1 \/ p = 4 ->
  exists p' : Z,
    fold_left checksec_line lines result !! "PIE" = Some p' /\
    (p' = 0 \/ p' = 1 \/ p' = 4) /\
    (p' = 0 <->
     p = 0 /\
     existsb (fun l => contains "Type:" l && contains "DYN (" l) lines
     = false).
Proof.
  revert result p. induction lines as [|line lines IH]; intros result p Hp Hr.
  - exists p. simpl. tauto.
  - destruct (checksec_line_pie result line p Hp Hr) as (q & Hq & Hqr & Hq0).
    destruct (IH _ q Hq Hqr) as (p' & Hp' & Hpr & Hp0).
    exists p'. simpl. split; [exact Hp'|]. split; [exact Hpr|].
    rewrite Hp0, Hq0, orb_false_iff. tauto.
Qed.

(** X14: Whenever [checksec] reports: NX is 0 exactly when some line of the
    readelf output names GNU_STACK together with RWE, and 1 otherwise;
    CANARY is 1 exactly when some line names [__stack_chk_fail];
    FORTIFY is 1 exactly when some line contains [_chk@]; PIE is 0, 1 or
    4, and 0 exactly when no line gives the type [DYN]. *)
Theorem checksec_flags (filename : option string) (name out : string) :
  match filename with None => getfile g | Some f => Some f end = Some name ->
  name <> EmptyString ->
  execute_external_command L
    (READELF L +:+ " -W -a " +:+ chr 34 +:+ name +:+ chr 34 +:+ " 2>&1") = out ->
  contains "Error:" out = false ->
  exists (result : gmap string Z) (pie : Z),
    checksec L g filename = Some result /\
    result !! "NX"
    = Some (if existsb (fun l => contains "GNU_STACK" l && contains "RWE" l)
                 (splitlines out) then 0 else 1) /\
    result !! "CANARY"
    = Some (if existsb (contains "__stack_chk_fail") (splitlines out)
            then 1 else 0) /\
    result !! "FORTIFY"
    = Some (if existsb (contains "_chk@") (splitlines out) then 1 else 0) /\
    result !! "PIE" = Some pie /\
    (pie = 0 \/ pie = 1 \/ pie = 4) /\
    (pie = 0 <->
     existsb (fun l => contains "Type:" l && contains "DYN (" l)
       (splitlines out) = false).
Proof.
  intros Hname Hne Hout Herr. unfold checksec. cbv zeta.
  rewrite Hname. destruct name as [|c name]; [done|].
  rewrite Hout, Herr.
  match goal with
  | |- context [fold_left checksec_line ?ls ?r0] =>
      pose proof (checksec_lines_flag "NX" _ 0 checksec_line_nx ls r0) as Hnx;
      pose proof (checksec_lines_flag "CANARY" _ 1 checksec_line_canary ls r0)
        as Hcanary;
      pose proof (checksec_lines_flag "FORTIFY" _ 1 checksec_line_fortify ls r0)
        as Hfortify;
      destruct (checksec_lines_pie ls r0 0 eq_refl (or_introl eq_refl))
        as (pie & Hpie & Hrange & Hzero);
      set (final := fold_left checksec_line ls r0) in *
  end.
  clearbody final.
  change ((<["FORTIFY" := 0]> (<["PIE" := 0]> (<["NX" := 1]>
            (<["CANARY" := 0]> (<["RELRO" := 0]> ∅)))) : gmap string Z)
            !! "NX") with (Some 1) in Hnx.
  change ((<["FORTIFY" := 0]> (<["PIE" := 0]> (<["NX" := 1]>
            (<["CANARY" := 0]> (<["RELRO" := 0]> ∅)))) : gmap string Z)
            !! "CANARY") with (Some 0) in Hcanary.
  change ((<["FORTIFY" := 0]> (<["PIE" := 0]> (<["NX" := 1]>
            (<["CANARY" := 0]> (<["RELRO" := 0]> ∅)))) : gmap string Z)
            !! "FORTIFY") with (Some 0) in Hfortify.
  eexists _, pie. split; [reflexivity|].
  destruct (bool_decide (final !! "RELRO" = Some 1)); lookups;
    rewrite Hnx, Hcanary, Hfortify, Hpie;
    repeat match goal with
           | |- (if ?b then _ else _) = _ /\ _ =>
               split; [by destruct b|]
           end;
    (split; [done|]); (split; [done|]); tauto.
Qed.

End ChecksecFlags.

(** ** ELF sections: names and kinds *)

Section ElfheaderShape.

Context (L : Lib) (g : Gdb).






End ElfheaderShape.

Lemma checksec_flags_witness :
  exists (result : gmap string Z) (pie : Z),
    checksec bind_now_lib ring_session None = Some result /\
    result !! "NX" = Some 1 /\
    result !! "CANARY" = Some 0 /\
    result !! "FORTIFY" = Some 0 /\
    result !! "PIE" = Some pie /\
    (pie = 0 \/ pie = 1 \/ pie = 4) /\
    (pie = 0 <-> true = false).
Proof.
  exact (checksec_flags bind_now_lib ring_session None "/tmp/a.out"
           (execute_external_command bind_now_lib EmptyString)
           eq_refl ltac:(discriminate) eq_refl eq_refl).
Defined.


(** ** The wrappers: architecture and registers *)

Section WrapperProperties.

Context (L : Lib) (g : Gdb).

(** X16: Whatever [getarch] answers, the width is 64 exactly when the name
    of the architecture contains ["64"] (the test [get_function_args]
    dispatches on) and 32 otherwise; hence [intsize] is 4 or 8, the two
    sizes [unpack] can read. *)
Theorem getarch_bits (arch : string) (bits : Z) :
  Wrappers.getarch g = Ok (arch, bits) ->
  bits = (if contains "64" arch then 64 else 32) /\
  (Wrappers.intsize g = Ok 4 \/ Wrappers.intsize g = Ok 8).
Proof.
  intros H.
  assert (bits = (if contains "64" arch then 64 else 32)) as Hbits.
  { unfold Wrappers.getarch in H.
    destruct (execute g "show architecture") as [gdb_arch|]; [|done].
    repeat match type of H with
           | (if ?b then _ else _) = _ =>
               destruct b; [by injection H as <- <-|]
           end.
    destruct (execute g "maintenance info sections ?") as [out|]; [|done].
    destruct (Wrappers.file_type _) as [a|]; [|done].
    cbn in H. by injection H as <- <-. }
  split; [exact Hbits|].
  unfold Wrappers.intsize. rewrite H. cbn. rewrite Hbits.
  destruct (contains "64" arch); [by right|by left].
Qed.




Lemma register_line_lookup (result : gmap string (option Z))
    (line name : string) :
  (forall n, names_register L line name n ->
             Wrappers.register_line L result line !! name = Some (Some n)) /\
  ((forall n, ~ names_register L line name n) ->
   Wrappers.register_line L result line !! name = result !! name).
Proof.
  unfold Wrappers.register_line, names_register. split.
  - intros n (w & rest & -> & ->). apply lookup_insert_eq.
  - intros Hno. destruct (words line) as [|k [|w rest]]; [done..|].
    destruct (to_int L (VStr w)) as [n|] eqn:Hw; [|done].
    apply lookup_insert_ne. intros ->. apply (Hno n). eauto.
Qed.

Lemma names_register_dec (line name : string) :
  (exists n, names_register L line name n) \/
  (forall n, ~ names_register L line name n).
Proof.
  unfold names_register.
  destruct (words line) as [|k [|w rest]].
  - right. intros n (? & ? & [=] & _).
  - right. intros n (? & ? & [=] & _).
  - destruct (decide (k = name)) as [->|Hne].
    + destruct (to_int L (VStr w)) as [n|] eqn:Hw.
      * left. exists n, w, rest. done.
      * right. intros n (? & ? & [= <- <-] & Hn). congruence.
    + right. intros n (? & ? & [= ? _ _] & _). done.
Qed.

Lemma names_register_fun (line name : string) (n n' : Z) :
  names_register L line name n -> names_register L line name n' -> n = n'.
Proof.
  intros (w & rest & Hw & Hn) (w' & rest' & Hw' & Hn').
  rewrite Hw in Hw'. injection Hw' as <- <-. congruence.
Qed.

Lemma register_lines (lines : list string) :
  last_line_wins L lines (fold_left (Wrappers.register_line L) lines ∅).
Proof.
  induction lines as [|l lines IH] using rev_ind; intros name v.
  - simpl. rewrite lookup_empty. split; [done|].
    intros (before & after & line & n & Heq & _).
    by destruct before.
  - rewrite fold_left_app. simpl.
    destruct (names_register_dec l name) as [[n Hn]|Hno].
    + rewrite (proj1 (register_line_lookup _ l name) n Hn). split.
      * intros [= <-]. exists lines, [], l, n. done.
      * intros (before & after & line & n' & Heq & Hline & -> & Hafter).
        destruct after as [|a after _] using rev_ind.
        -- apply app_inj_tail in Heq as [_ <-].
           f_equal. f_equal. by apply (names_register_fun l name).
        -- rewrite app_comm_cons, app_assoc in Heq.
           apply app_inj_tail in Heq as [_ <-].
           apply Forall_app in Hafter as [_ Ha].
           apply Forall_inv in Ha. by destruct (Ha n).
    + rewrite (proj2 (register_line_lookup _ l name) Hno), (IH name v).
      split.
      * intros (before & after & line & n & -> & Hline & -> & Hafter).
        exists before, (after ++ [l])%list, line, n.
        split; [by rewrite <- app_assoc|]. split; [done|]. split; [done|].
        apply Forall_app. split; [done|]. constructor; [done|constructor].
      * intros (before & after & line & n & Heq & Hline & -> & Hafter).
        destruct after as [|a after _] using rev_ind.
        -- apply app_inj_tail in Heq as [_ <-]. by destruct (Hno n).
        -- rewrite app_comm_cons, app_assoc in Heq.
           apply app_inj_tail in Heq as [-> <-].
           apply Forall_app in Hafter as [Hafter _].
           by exists before, after, line, n.
Qed.

(** X17: On a target other than MIPS the dict [getregs] returns holds, for
    each register, the value of the last line of gdb's answer whose first
    word is the register and whose second word is a number, and nothing
    else: lines without a numeric second word are skipped, and of two
    lines for one register the later one wins. *)
Theorem getregs_last_line_wins (reglist : option string)
    (regs : gmap string (option Z)) (arch : string) (bits : Z) :
  Wrappers.getregs L g reglist = Ok (Some regs) ->
  Wrappers.getarch g = Ok (arch, bits) ->
  contains "mips" arch = false ->
  exists out : string,
    execute g ("info registers " +:+
               match reglist with
               | Some (String c s) => replace (String c s) "," " "
               | _ => EmptyString
               end) = Some out /\
    last_line_wins L (splitlines out) regs.
Proof.
  unfold Wrappers.getregs. cbv zeta. intros H Harch Hmips.
  destruct (execute g _) as [[|c out]|]; [done| |done].
  rewrite Harch in H. cbn in H. rewrite Hmips in H. injection H as <-.
  exists (String c out). split; [done|]. apply register_lines.
Qed.


End WrapperProperties.

(** ** The eflags writer *)

Section EflagsWriter.

Context (L : Lib) (g : Gdb).

Lemma one_bit (i j : Z) :
  0 <= i -> 0 <= j -> Z.testbit (1 ≪ i) j = (j =? i)%Z.
Proof.
  intros Hi Hj. rewrite Z.shiftl_spec by lia.
  destruct (Z.eqb_spec j i) as [->|Hne].
  - by rewrite Z.sub_diag.
  - destruct (Z.lt_ge_cases j i).
    + apply Z.testbit_neg_r. lia.
    + apply Z.bits_above_log2; simpl; lia.
Qed.

Lemma eflags_dict_lookups (e : Z) :
  eflags_dict e !! "CF" = Some (truthy (Z.land e (1 ≪ 0))) /\
  eflags_dict e !! "PF" = Some (truthy (Z.land e (1 ≪ 2))) /\
  eflags_dict e !! "AF" = Some (truthy (Z.land e (1 ≪ 4))) /\
  eflags_dict e !! "ZF" = Some (truthy (Z.land e (1 ≪ 6))) /\
  eflags_dict e !! "SF" = Some (truthy (Z.land e (1 ≪ 7))) /\
  eflags_dict e !! "TF" = Some (truthy (Z.land e (1 ≪ 8))) /\
  eflags_dict e !! "IF" = Some (truthy (Z.land e (1 ≪ 9))) /\
  eflags_dict e !! "DF" = Some (truthy (Z.land e (1 ≪ 10))) /\
  eflags_dict e !! "OF" = Some (truthy (Z.land e (1 ≪ 11))).
Proof.
  unfold eflags_dict, EFLAGS_CF, EFLAGS_PF, EFLAGS_AF, EFLAGS_ZF, EFLAGS_SF,
    EFLAGS_TF, EFLAGS_IF, EFLAGS_DF, EFLAGS_OF.
  repeat match goal with
         | |- context [truthy ?x] =>
             let b := fresh "b" in generalize (truthy x); intro b
         end.
  vm_compute. repeat split.
Qed.

(** What one accepted flag name does. *)
Lemma set_eflags_one (flagname key : string) (bit : Z)
    (value : option bool) (ok : bool) (sent : option string) (e : Z) :
  0 <= bit ->
  eflags_dict e !! key = Some (truthy (Z.land e (1 ≪ bit))) ->
  eflags_mask key = Ok (1 ≪ bit) ->
  getreg g "eflags" = Some e ->
  (let* differs :=
     match value with
     | None => Ok true
     | Some b =>
         let* cur := getitem (eflags_dict e) key in Ok (negb (Bool.eqb cur b))
     end in
   if differs then
     let* reg_eflags := int_of (getreg g "eflags") in
     let* mask := eflags_mask key in
     let reg_eflags := Z.lxor reg_eflags mask in
     let cmd := "set $eflags = " +:+ fmt_hex reg_eflags in
     Ok (bool_decide (execute g cmd <> None), Some cmd)
   else Ok (true, None)) = Ok (ok, sent) ->
  match sent with
  | Some cmd =>
      cmd = "set $eflags = " +:+ fmt_hex (Z.lxor e (1 ≪ bit)) /\
      ok = bool_decide (execute g cmd <> None) /\
      (forall j : Z,
         0 <= j ->
         Z.testbit (Z.lxor e (1 ≪ bit)) j
         = if (j =? bit)%Z then negb (Z.testbit e j) else Z.testbit e j) /\
      (forall b : bool,
         value = Some b -> Z.testbit (Z.lxor e (1 ≪ bit)) bit = b)
  | None =>
      ok = true /\ exists b : bool, value = Some b /\ Z.testbit e bit = b
  end.
Proof.
  intros Hbit Hkey Hmask He.
  assert (forall j : Z,
            0 <= j ->
            Z.testbit (Z.lxor e (1 ≪ bit)) j
            = if (j =? bit)%Z then negb (Z.testbit e j) else Z.testbit e j)
    as Hflip.
  { intros j Hj. rewrite Z.lxor_spec, one_bit by done.
    destruct (j =? bit)%Z, (Z.testbit e j); done. }
  unfold getitem. rewrite Hkey, He, Hmask, truthy_bit by done.
  destruct value as [b|]; cbn.
  - destruct (Bool.eqb (Z.testbit e bit) b) eqn:Hb; cbn.
    + intros [= <- <-]. split; [done|]. exists b. split; [done|].
      by apply Bool.eqb_prop.
    + intros [= <- <-]. split; [done|]. split; [done|]. split; [done|].
      intros b' [= <-]. rewrite Hflip, Z.eqb_refl by done.
      by destruct (Z.testbit e bit), b.
  - intros [= <- <-]. split; [done|]. split; [done|]. split; [done|]. done.
Qed.

Ltac in_table :=
  unfold EFLAGS_BITS;
  repeat first [apply list_elem_of_here | apply list_elem_of_further].

(** X19: [set_eflags] changes one bit at most.  When it sends a command, the
    command sets the register to its value with the bit of the named
    flag flipped and every other bit as it was, and after a request to
    set or clear the flag that bit has the requested value; the result is
    whether gdb accepted the command.  When it returns [True] without a
    command, the flag already had the requested value. *)
Theorem set_eflags_flips_one_bit (flagname : string) (value : option bool)
    (ok : bool) (sent : option string) :
  set_eflags g flagname value = Ok (ok, sent) ->
  ok = true \/ sent <> None ->
  exists (e bit : Z),
    getreg g "eflags" = Some e /\
    (lower flagname, bit) ∈ EFLAGS_BITS /\
    match sent with
    | Some cmd =>
        cmd = "set $eflags = " +:+ fmt_hex (Z.lxor e (1 ≪ bit)) /\
        ok = bool_decide (execute g cmd <> None) /\
        (forall j : Z,
           0 <= j ->
           Z.testbit (Z.lxor e (1 ≪ bit)) j
           = if (j =? bit)%Z then negb (Z.testbit e j) else Z.testbit e j) /\
        (forall b : bool,
           value = Some b -> Z.testbit (Z.lxor e (1 ≪ bit)) bit = b)
    | None =>
        ok = true /\ exists b : bool, value = Some b /\ Z.testbit e bit = b
    end.
Proof.
  unfold set_eflags. cbv zeta. intros H Hdone.
  destruct (dict_get EFLAGS_NAMES (lower flagname)) as [key|] eqn:Hkey.
  2: { injection H as <- <-. by destruct Hdone. }
  destruct (get_eflags g) as [flags|] eqn:Hflags.
  2: { injection H as <- <-. by destruct Hdone. }
  destruct (get_eflags_Some _ _ Hflags) as (e & He & Hne & ->).
  rewrite eflags_dict_nonempty in H.
  destruct (eflags_dict_lookups e)
    as (Hcf & Hpf & Haf & Hzf & Hsf & Htf & Hif & Hdf & Hof).
  exists e.
  unfold EFLAGS_NAMES in Hkey. cbn [dict_get] in Hkey. revert Hkey.
  repeat match goal with
         | |- (if String.eqb ?a ?b then _ else _) = _ -> _ =>
             destruct (String.eqb_spec a b) as [Hname|_]
         end;
    intros Hkey; try discriminate Hkey; injection Hkey as <-;
    rewrite <- Hname.
  - exists 0. split; [done|]. split; [in_table|].
    by apply (set_eflags_one flagname "CF" 0 value ok sent e).
  - exists 2. split; [done|]. split; [in_table|].
    by apply (set_eflags_one flagname "PF" 2 value ok sent e).
  - exists 4. split; [done|]. split; [in_table|].
    by apply (set_eflags_one flagname "AF" 4 value ok sent e).
  - exists 6. split; [done|]. split; [in_table|].
    by apply (set_eflags_one flagname "ZF" 6 value ok sent e).
  - exists 7. split; [done|]. split; [in_table|].
    by apply (set_eflags_one flagname "SF" 7 value ok sent e).
  - exists 8. split; [done|]. split; [in_table|].
    by apply (set_eflags_one flagname "TF" 8 value ok sent e).
  - exists 9. split; [done|]. split; [in_table|].
    by apply (set_eflags_one flagname "IF" 9 value ok sent e).
  - exists 10. split; [done|]. split; [in_table|].
    by apply (set_eflags_one flagname "DF" 10 value ok sent e).
  - exists 11. split; [done|]. split; [in_table|].
    by apply (set_eflags_one flagname "OF" 11 value ok sent e).
Qed.

End EflagsWriter.

(** ** The memory map of a program that is not running *)

Section OfflineMaps.

Context (L : Lib) (g : Gdb).

Lemma elem_of_insert_by_start (x y : string * header) (l : headers) :
  y ∈ insert_by_start x l <-> y = x \/ y ∈ l.
Proof.
  induction l as [|z l IH]; simpl.
  - rewrite list_elem_of_singleton. split; [auto|].
    intros [?|?%elem_of_nil]; done.
  - destruct (x.2.1.1 <=? z.2.1.1)%Z.
    + by rewrite elem_of_cons.
    + rewrite !elem_of_cons, IH. tauto.
Qed.

(** The head of the sorted list starts first. *)
Lemma sorted_by_start_head (l : headers) :
  match sorted_by_start l with
  | [] => l = []
  | first :: _ =>
      Forall (fun y : string * header => first.2.1.1 <= y.2.1.1) l
  end.
Proof.
  induction l as [|x l IH]; [done|].
  unfold sorted_by_start in *. simpl.
  destruct (foldr insert_by_start [] l) as [|f r].
  - subst l. simpl. constructor; [lia|constructor].
  - simpl. destruct (Z.leb_spec x.2.1.1 f.2.1.1) as [Hle|Hgt].
    + constructor; [lia|].
      eapply Forall_impl; [exact IH|]. simpl. intros y Hy. lia.
    + constructor; [lia|done].
Qed.

Lemma offline_range_start (hs : headers) (kind perm name : string)
    (r : offline_range) :
  (let hlist := filter (fun x : string * header => x.2.2 = kind) hs in
   let hlist := sorted_by_start hlist in
   let* first := index hlist 0 in
   let* last := last_item hlist in
   Ok (first.2.1.1, last.2.1.2, perm, name)) = Ok r ->
  r.1.2 = perm /\ r.2 = name /\ starts_from hs kind r.1.1.1.
Proof.
  cbv zeta. intros H.
  pose proof (sorted_by_start_head
                (filter (fun x : string * header => x.2.2 = kind) hs)) as Hs.
  destruct (sorted_by_start _) as [|first rest]; [done|].
  cbn in H. destruct (last_item (first :: rest)) as [last|]; [|done].
  cbn in H. injection H as <-. simpl. split; [done|]. split; [done|].
  intros k s e Hin.
  assert ((k, (s, e, kind)) ∈
            filter (fun x : string * header => x.2.2 = kind) hs) as Hf
    by (by apply list_elem_of_filter).
  by apply (proj1 (Forall_forall _ _) Hs) in Hf.
Qed.

(** X20: For a program that is not running the memory map, when it can be
    built, has exactly three ranges, for code, read-only data and data in
    this order, with permissions [rx-p], [r--p] and [rw-p] and the name of
    the program; no section starts before the range of its kind. *)
Theorem offline_maps_shape (maps : list offline_range) :
  _get_offline_maps L g = Ok (Some maps) ->
  exists (name : string) (hs : headers) (code rodata data : Z * option Z),
    getfile g = Some name /\
    elfheader L g None = Ok hs /\
    maps = [(code.1, code.2, "rx-p", name);
            (rodata.1, rodata.2, "r--p", name);
            (data.1, data.2, "rw-p", name)] /\
    starts_from hs "code" code.1 /\
    starts_from hs "rodata" rodata.1 /\
    starts_from hs "data" data.1.
Proof.
  unfold _get_offline_maps. cbv zeta.
  destruct (getfile g) as [[|c name]|]; [done| |done].
  destruct (elfheader L g None) as [hs|]; [|done]. cbn [Py.bind].
  match goal with
  | |- Py.bind ?m _ = _ -> _ =>
      destruct m as [[[[cs ce] cp] cn]|] eqn:Hc; [|done]
  end.
  cbn [Py.bind].
  match goal with
  | |- Py.bind ?m _ = _ -> _ =>
      destruct m as [[[[rs re] rp] rn]|] eqn:Hr; [|done]
  end.
  cbn [Py.bind].
  match goal with
  | |- Py.bind ?m _ = _ -> _ =>
      destruct m as [[[[ds de] dp] dn]|] eqn:Hd; [|done]
  end.
  cbn [Py.bind]. intros [= <-].
  apply offline_range_start in Hc as (Hcp & Hcn & Hcs).
  apply offline_range_start in Hr as (Hrp & Hrn & Hrs).
  apply offline_range_start in Hd as (Hdp & Hdn & Hds).
  simpl in *. subst.
  exists (String c name), hs, (cs, ce), (rs, re), (ds, de). done.
Qed.

End OfflineMaps.

Lemma getarch_bits_witness :
  64 = (if contains "64" "elf64-x86-64" then 64 else 32) /\
  (Wrappers.intsize answers_session = Ok 4 \/
   Wrappers.intsize answers_session = Ok 8).
Proof.
  exact (getarch_bits answers_session "elf64-x86-64" 64 eq_refl).
Defined.

Lemma getregs_last_line_wins_witness :
  exists out : string,
    execute answers_session ("info registers " +:+ EmptyString) = Some out /\
    last_line_wins plain_lib (splitlines out)
      (<["rax" := Some 42]> (<["rbx" := Some 0]> (<["rax" := Some 28]> ∅))).
Proof.
  apply (getregs_last_line_wins plain_lib answers_session None
           (<["rax" := Some 42]> (<["rbx" := Some 0]> (<["rax" := Some 28]> ∅)))
           "elf64-x86-64" 64).
  - vm_compute. reflexivity.
  - reflexivity.
  - reflexivity.
Defined.


Lemma set_eflags_flips_one_bit_witness :
  exists (e bit : Z),
    getreg answers_session "eflags" = Some e /\
    (lower "Zero", bit) ∈ EFLAGS_BITS /\
    "set $eflags = 0x206" = "set $eflags = " +:+ fmt_hex (Z.lxor e (1 ≪ bit)) /\
    false = bool_decide (execute answers_session "set $eflags = 0x206" <> None) /\
    (forall j : Z,
       0 <= j ->
       Z.testbit (Z.lxor e (1 ≪ bit)) j
       = if (j =? bit)%Z then negb (Z.testbit e j) else Z.testbit e j) /\
    (forall b : bool,
       Some false = Some b -> Z.testbit (Z.lxor e (1 ≪ bit)) bit = b).
Proof.
  apply (set_eflags_flips_one_bit answers_session "Zero" (Some false) false
           (Some "set $eflags = 0x206")).
  - vm_compute. reflexivity.
  - by right.
Defined.

Lemma offline_maps_shape_witness :
  exists (name : string) (hs : headers) (code rodata data : Z * option Z),
    getfile three_sections_session = Some name /\
    elfheader three_sections_lib three_sections_session None = Ok hs /\
    [(0x400000, Some 0x400100, "rx-p", "/tmp/a.out");
     (0x400100, Some 0x400180, "r--p", "/tmp/a.out");
     (0x600000, Some 0x600010, "rw-p", "/tmp/a.out")]
    = [(code.1, code.2, "rx-p", name);
       (rodata.1, rodata.2, "r--p", name);
       (data.1, data.2, "rw-p", name)] /\
    starts_from hs "code" code.1 /\
    starts_from hs "rodata" rodata.1 /\
    starts_from hs "data" data.1.
Proof.
  apply (offline_maps_shape three_sections_lib three_sections_session).
  vm_compute. reflexivity.
Defined.
